(** * Leaderboard participant store: namespaced IDs, cache warm-up and the score ledger

    A shallow embedding of the Go packages
      - [leaderboard/internal/models]  (participant.go),
      - [leaderboard/internal/repos]   (participant.go and the warm-up file),
      - [leaderboard]                  (the IndividualLeaderboardHelper),
    together with the properties their specification states about them. *)

From Stdlib Require Import String Ascii ZArith Lia Bool PrimFloat.
From stdpp Require Import base option list strings gmap.

Open Scope string_scope.
Open Scope list_scope.

(** ** Go's [strings] package, as far as the models use it *)

Module strings.

(** [s[:n]] and [s[n:]] on byte strings. *)
Fixpoint take (n : nat) (s : string) : string :=
  match n, s with
  | S n', String a s' => String a (take n' s')
  | _, _ => ""
  end.

Fixpoint drop (n : nat) (s : string) : string :=
  match n, s with
  | S n', String _ s' => drop n' s'
  | _, _ => s
  end.

(** [strings.HasPrefix(s, p)]. *)
Fixpoint HasPrefix (s p : string) {struct p} : bool :=
  match p, s with
  | "", _ => true
  | String b p', String a s' => if Ascii.eqb a b then HasPrefix s' p' else false
  | String _ _, "" => false
  end.

(** [strings.Index(s, sep)]: the byte offset of the leftmost instance of
    [sep] in [s]; [None] stands for Go's -1. *)
Fixpoint Index (s sep : string) : option nat :=
  if HasPrefix s sep then Some 0
  else match s with
       | "" => None
       | String _ s' => S <$> Index s' sep
       end.

(** The loop of [strings.genSplit] for a non-empty separator:
<<
    for i < n { m := Index(s, sep); if m < 0 { break }
                a[i] = s[:m]; s = s[m+len(sep):]; i++ }
    a[i] = s
>>
    Go bounds the loop by [n = min(Count(s, sep), len(s))]; the loop leaves
    at the first failing [Index] anyway, so the bound only has to be large
    enough, and [len(s)] is (lemma [genSplit_fuel]). *)
Fixpoint genSplit (n : nat) (s sep : string) : list string :=
  match n with
  | 0 => [s]
  | S n' =>
      match Index s sep with
      | None => [s]
      | Some m => take m s :: genSplit n' (drop (m + String.length sep) s) sep
      end
  end.

(** [strings.Split(s, sep)] for [sep <> ""]. *)
Definition Split (s sep : string) : list string :=
  genSplit (String.length s) s sep.

(** The loop of [strings.Count(s, substr)] for a non-empty [substr]: the
    number of non-overlapping instances, found left to right. *)
Fixpoint countLoop (n : nat) (s sep : string) : nat :=
  match n with
  | 0 => 0
  | S n' =>
      match Index s sep with
      | None => 0
      | Some m => S (countLoop n' (drop (m + String.length sep) s) sep)
      end
  end.

Definition Count (s sep : string) : nat := countLoop (String.length s) s sep.

(** [strings.Contains] and [strings.HasSuffix], used to state the format. *)
Definition Contains (s sep : string) : bool :=
  match Index s sep with Some _ => true | None => false end.

Fixpoint HasSuffix (s p : string) : bool :=
  if String.eqb s p then true
  else match s with
       | "" => false
       | String _ s' => HasSuffix s' p
       end.

End strings.

(** ** Go's [time] package

    A [time.Time] is an instant and a [time.Duration] a signed span, both
    counted here in nanoseconds.  (Go saturates a difference of instants at
    about 292 years, and the Redis client sends an expiry rounded down to whole
    seconds; both are below the resolution of this model.) *)

Definition Time := Z.
Definition Duration := Z.

Module time.
Definition Second : Duration := 1000000000%Z.
Definition Hour : Duration := (3600 * Second)%Z.
Definition Add (t : Time) (d : Duration) : Time := (t + d)%Z.
Definition Sub (t u : Time) : Duration := (t - u)%Z.
Definition After (t u : Time) : bool := (u <? t)%Z.
Definition Unix (t : Time) : Z := (t / Second)%Z.
End time.

(** ** Package [models] *)

Module models.

(* CreateNamespacedUserID combines clientID and userID into the expected format *)
Definition CreateNamespacedUserID (clientID userID : string) : string :=
  clientID +:+ "___" +:+ userID.

(* SplitNamespacedUserID splits a combined user ID into clientID and userID.
   The format is expected to be "clientID___userID" *)
Definition SplitNamespacedUserID (namespacedUserID : string) : string * string :=
  match strings.Split namespacedUserID "___" with
  | [p0; p1] => (p0, p1)
  | _ => ("", "")
  end.

(* Participant represents a user's score in a leaderboard. *)
Record ParticipantModel := mkParticipant {
  LeaderboardID : string;
  NamespacedUserID : string;
  ClientID : string;
  UserID : string;
  Score : float;
  UpdatedAt : Time
}.

(* NewParticipant creates a new participant with the given parameters;
   [now] is the reading of utils.GetCurrTimeStamp(). *)
Definition NewParticipantModel (now : Time) (leaderboardID clientID userID : string)
    (score : float) : ParticipantModel :=
  let namespacedUserID := CreateNamespacedUserID clientID userID in
  {| LeaderboardID := leaderboardID;
     NamespacedUserID := namespacedUserID;
     ClientID := clientID;
     UserID := userID;
     Score := score;
     UpdatedAt := now |}.

(* NewParticipantFromNamespacedID creates a new participant from a namespaced user ID *)
Definition NewParticipantFromNamespacedID (now : Time) (leaderboardID namespacedUserID : string)
    (score : float) : ParticipantModel :=
  let '(clientID, userID) := SplitNamespacedUserID namespacedUserID in
  {| LeaderboardID := leaderboardID;
     NamespacedUserID := namespacedUserID;
     ClientID := clientID;
     UserID := userID;
     Score := score;
     UpdatedAt := now |}.

End models.

(** ** Errors

    Go's [error] values as the code builds them: an error returned by a store
    client, [redis.Nil], [fmt.Errorf(msg)], and [fmt.Errorf(msg + ": %w", err)]. *)

Inductive error : Type :=
| redis_Nil
| store_error
| Errorf (msg : string)
| Wrapf (msg : string) (cause : error).

Inductive Result (A : Type) : Type :=
| Ok (a : A)
| Err (e : error).
Arguments Ok {A} a.
Arguments Err {A} e.

(** ** The ordered cache (Redis) *)

Module redis.

(** [redis.Z]: a sorted-set member with its score.  The zero value [Z{}]
    has score 0 and a nil member, which the client writes as the empty
    string. *)
Record ZPair := mkZ { Score : float; Member : string }.

Definition Z0 : ZPair := {| Score := 0; Member := "" |}.

(** The commands the repository queues on a pipeline. *)
Inductive Cmd : Type :=
| Del (key : string)
| ZAdd (key : string) (z : ZPair)
| ZIncrBy (key : string) (increment : float) (member : string)
| ZRem (key : string) (member : string)
| Expire (key : string) (expiration : Duration).

(** A sorted-set key: its members with their scores, and the deadline of
    the key when it has one. *)
Record Entry := mkEntry { zset : gmap string float; deadline : option Time }.

Definition expired (now : Time) (e : Entry) : bool :=
  match deadline e with
  | Some t => (t <=? now)%Z
  | None => false
  end.

(** The key as a client sees it at [now]: an expired key is gone. *)
Definition live (now : Time) (db : gmap string Entry) (key : string) : option Entry :=
  match db !! key with
  | Some e => if expired now e then None else Some e
  | None => None
  end.

(** Writing a sorted set back: a sorted set without members does not exist. *)
Definition store (key : string) (zs : gmap string float) (dl : option Time)
    (db : gmap string Entry) : gmap string Entry :=
  if Nat.eqb (size zs) 0 then delete key db else <[key := mkEntry zs dl]> db.

Definition members (o : option Entry) : gmap string float :=
  match o with Some e => zset e | None => ∅ end.

Definition deadlineOf (o : option Entry) : option Time :=
  match o with Some e => deadline e | None => None end.

Definition apply (now : Time) (db : gmap string Entry) (c : Cmd) : gmap string Entry :=
  match c with
  | Del key => delete key db
  | ZAdd key z =>
      let o := live now db key in
      store key (<[Member z := Score z]> (members o)) (deadlineOf o) db
  | ZIncrBy key incr member =>
      let o := live now db key in
      let old := default 0%float (members o !! member) in
      store key (<[member := (old + incr)%float]> (members o)) (deadlineOf o) db
  | ZRem key member =>
      let o := live now db key in
      store key (delete member (members o)) (deadlineOf o) db
  | Expire key d =>
      match live now db key with
      | Some e =>
          if (d <=? 0)%Z then delete key db
          else <[key := mkEntry (zset e) (Some (now + d)%Z)]> db
      | None => delete key db
      end
  end.

(** A pipeline is carried out in the order it was queued. *)
Definition exec (now : Time) (cmds : list Cmd) (db : gmap string Entry) : gmap string Entry :=
  foldl (apply now) db cmds.

(** Descending order of a sorted set: by score, and among equal scores by
    member, both from high to low. *)
Definition before (a b : ZPair) : bool :=
  if (Score b <? Score a)%float then true
  else if (Score a <? Score b)%float then false
  else String.ltb (Member b) (Member a).

Fixpoint insertDesc (a : ZPair) (l : list ZPair) : list ZPair :=
  match l with
  | [] => [a]
  | b :: l' => if before a b then a :: l else b :: insertDesc a l'
  end.

Definition revList (zs : gmap string float) : list ZPair :=
  foldr insertDesc [] ((fun p => mkZ p.2 p.1) <$> map_to_list zs).

(** The index range [start..stop] of a list of [len] elements, negative
    indices counting from the end, as the range commands read it. *)
Definition rangeOf {A} (l : list A) (start stop : Z) : list A :=
  let len := Z.of_nat (length l) in
  let start := (if start <? 0 then Z.max 0 (len + start) else start)%Z in
  let stop := (if stop <? 0 then len + stop else stop)%Z in
  if ((stop <? start) || (len <=? start))%Z then []
  else take (Z.to_nat (Z.min stop (len - 1) - start + 1)) (drop (Z.to_nat start) l).

Fixpoint indexOf (member : string) (l : list ZPair) : option nat :=
  match l with
  | [] => None
  | z :: l' => if String.eqb (Member z) member then Some 0 else S <$> indexOf member l'
  end.

Definition EXISTS (now : Time) (db : gmap string Entry) (key : string) : Z :=
  match live now db key with Some _ => 1%Z | None => 0%Z end.

Definition ZREVRANGE (now : Time) (db : gmap string Entry) (key : string)
    (start stop : Z) : list ZPair :=
  rangeOf (revList (members (live now db key))) start stop.

Definition ZSCORE (now : Time) (db : gmap string Entry) (key member : string) : option float :=
  members (live now db key) !! member.

Definition ZREVRANK (now : Time) (db : gmap string Entry) (key member : string) : option nat :=
  indexOf member (revList (members (live now db key))).

End redis.

(** ** The authoritative store (the DynamoDB table) *)

Module dynamodb.

(** An item of the table [PlatformLeaderboardScores].  The two key
    attributes and [score] are set by every writer of the table; the other
    attributes are present or not according to the writer ([PutItem] of a
    marshalled participant, or the [SET] expression of [UpdateItem]). *)
Record Item := mkItem {
  leaderboardID : string;
  namespacedUserID : string;
  clientID : option string;
  userID : option string;
  score : float;
  updatedAt : option Time;
  updated_at : option Time;
  created_at : option Z
}.

Definition keyOf (it : Item) : string * string :=
  (leaderboardID it, namespacedUserID it).

(** [SET score = if_not_exists(score, :zero) + :incVal, updated_at = :updatedAt]
    on the item under [key], which the update creates when it is absent. *)
Definition update (key : string * string) (incVal : float) (updatedAtVal : Time)
    (t : gmap (string * string) Item) : gmap (string * string) Item :=
  match t !! key with
  | Some it =>
      <[key := mkItem (leaderboardID it) (namespacedUserID it) (clientID it) (userID it)
                      (score it + incVal)%float (updatedAt it) (Some updatedAtVal)
                      (created_at it)]> t
  | None =>
      <[key := mkItem key.1 key.2 None None (0 + incVal)%float None (Some updatedAtVal) None]> t
  end.

(** Insertion sort of the items of a partition on their sort key. *)
Fixpoint insertItem (a : Item) (l : list Item) : list Item :=
  match l with
  | [] => [a]
  | b :: l' =>
      if String.leb (namespacedUserID a) (namespacedUserID b) then a :: l
      else b :: insertItem a l'
  end.

(** [KeyConditionExpression: leaderboardID = :lid]: the items of one
    partition, in the order of their sort key. *)
Definition partition (lid : string) (t : gmap (string * string) Item) : list Item :=
  foldr insertItem []
    (filter (fun it => bool_decide (leaderboardID it = lid)) ((map_to_list t).*2)).

(** The pages of a query result: at most [S k] items each, and one empty
    page for an empty result. *)
Fixpoint paginate {A} (k room : nat) (l : list A) : list (list A) :=
  match l with
  | [] => [[]]
  | x :: l' =>
      match room with
      | S r =>
          match paginate k r l' with
          | p :: ps => (x :: p) :: ps
          | [] => [[x]]
          end
      | 0 =>
          [] :: match paginate k k l' with
                | p :: ps => (x :: p) :: ps
                | [] => [[x]]
                end
      end
  end.

Definition pages {A} (k : nat) (l : list A) : list (list A) :=
  paginate k (S k) l.

End dynamodb.

(** ** The result type of the read operations *)

Module customTypes.
Record MemberScore := mkMemberScore { Member : string; Score : float; Rank : Z }.
End customTypes.

(** ** The world the repository runs in *)

(** What a call observes of its surroundings: the clock, how the table
    answers, and which calls to the two stores fail. *)
Record Env := mkEnv {
  (** the reading of [utils.GetCurrTimeStamp()] during the call *)
  clock : Time;
  (** the number DynamoDB reads from [fmt.Sprintf("%f", x)] *)
  fmtF : float -> float;
  (** a query page holds at most [S pageLimit] items *)
  pageLimit : nat;
  (** the request for page [k] of a query fails *)
  queryFails : nat -> bool;
  (** the items of page [k] fail to unmarshal *)
  unmarshalFails : nat -> bool;
  existsFails : bool;
  (** [Exec] of the warm-up pipeline fails *)
  warmExecFails : bool;
  (** [Exec] of the operation's own pipeline fails *)
  execFails : bool;
  zrevrangeFails : bool;
  zscoreFails : bool;
  zrevrankFails : bool;
  getItemFails : bool;
  putItemFails : bool;
  updateItemFails : bool;
  deleteItemFails : bool
}.

(** The calls an operation makes, in the order it makes them. *)
Inductive Event : Type :=
| CallEnsure (leaderboardID : string)
| RedisExists (key : string)
| RedisExec (cmds : list redis.Cmd)
| RedisZRevRange (key : string) (start stop : Z)
| RedisZScore (key member : string)
| RedisZRevRank (key member : string)
| DynamoQuery (leaderboardID : string) (page : nat)
| DynamoGetItem (key : string * string)
| DynamoPutItem (key : string * string)
| DynamoUpdateItem (key : string * string)
| DynamoDeleteItem (key : string * string).

Record World := mkWorld {
  table : gmap (string * string) dynamodb.Item;
  cache : gmap string redis.Entry;
  trace : list Event
}.

Definition setTable (t : gmap (string * string) dynamodb.Item) (w : World) : World :=
  mkWorld t (cache w) (trace w).
Definition setCache (c : gmap string redis.Entry) (w : World) : World :=
  mkWorld (table w) c (trace w).
Definition record (e : Event) (w : World) : World :=
  mkWorld (table w) (cache w) (trace w ++ [e]).

(** Computations over the world that may fail: a failure leaves the effects
    made so far in place. *)
Definition M (A : Type) : Type := World -> Result A * World.

Definition ret {A} (a : A) : M A := fun w => (Ok a, w).
Definition bind {A B} (m : M A) (f : A -> M B) : M B :=
  fun w =>
    match m w with
    | (Ok a, w') => f a w'
    | (Err e, w') => (Err e, w')
    end.

#[global] Instance M_ret : MRet M := @ret.
#[global] Instance M_bind : MBind M := fun A B f m => bind m f.

(** Arithmetic on [int64] wraps around. *)
Definition int64 (z : Z) : Z := ((z + 2 ^ 63) mod 2 ^ 64 - 2 ^ 63)%Z.

(** [if err != nil { return fmt.Errorf(msg + ": %w", err) }] *)
Definition wrap {A} (msg : string) (m : M A) : M A :=
  fun w =>
    match m w with
    | (Ok a, w') => (Ok a, w')
    | (Err e, w') => (Err (Wrapf msg e), w')
    end.

(** A call to a store: it is recorded, then fails or acts on the world. *)
Definition call {A} (e : Event) (fails : bool) (act : World -> A * World) : M A :=
  fun w =>
    let w := record e w in
    if fails then (Err store_error, w)
    else let '(a, w') := act w in (Ok a, w').

Definition runOf {A} (m : M A) (w : World) : Result A := (m w).1.
Definition after {A} (m : M A) (w : World) : World := (m w).2.

(** ** Package [repos]: the warm-up of the cache and the score ledger *)

Module repos.

Import redis.

Definition tableName : string := "PlatformLeaderboardScores".

(* getRedisKey returns the Redis key for a specific leaderboard *)
Definition getRedisKey (leaderboardID : string) : string :=
  "leaderboard:" +:+ leaderboardID.

(** *** The calls to the two stores *)

Definition Exists (env : Env) (key : string) : M Z :=
  call (RedisExists key) (existsFails env)
    (fun w => (EXISTS (clock env) (cache w) key, w)).

(** [pipe.Exec]: the queued commands are carried out in order; a failing
    submission carries out none. *)
Definition Exec (env : Env) (fails : bool) (pipe : list Cmd) : M unit :=
  call (RedisExec pipe) fails
    (fun w => (tt, setCache (exec (clock env) pipe (cache w)) w)).

Definition ZRevRangeWithScores (env : Env) (key : string) (start stop : Z) : M (list ZPair) :=
  call (RedisZRevRange key start stop) (zrevrangeFails env)
    (fun w => (ZREVRANGE (clock env) (cache w) key start stop, w)).

(** [ZScore] and [ZRevRank] answer [redis.Nil] for a member that is not in
    the sorted set. *)
Definition ZScore (env : Env) (key member : string) : M float :=
  fun w =>
    let w := record (RedisZScore key member) w in
    if zscoreFails env then (Err store_error, w)
    else match ZSCORE (clock env) (cache w) key member with
         | Some x => (Ok x, w)
         | None => (Err redis_Nil, w)
         end.

Definition ZRevRank (env : Env) (key member : string) : M Z :=
  fun w =>
    let w := record (RedisZRevRank key member) w in
    if zrevrankFails env then (Err store_error, w)
    else match ZREVRANK (clock env) (cache w) key member with
         | Some i => (Ok (Z.of_nat i), w)
         | None => (Err redis_Nil, w)
         end.

Definition GetItem (env : Env) (key : string * string) : M (option dynamodb.Item) :=
  call (DynamoGetItem key) (getItemFails env) (fun w => (table w !! key, w)).

Definition PutItem (env : Env) (item : dynamodb.Item) : M unit :=
  call (DynamoPutItem (dynamodb.keyOf item)) (putItemFails env)
    (fun w => (tt, setTable (<[dynamodb.keyOf item := item]> (table w)) w)).

Definition UpdateItem (env : Env) (key : string * string) (incVal : float)
    (updatedAt : Time) : M unit :=
  call (DynamoUpdateItem key) (updateItemFails env)
    (fun w => (tt, setTable (dynamodb.update key incVal updatedAt (table w)) w)).

Definition DeleteItem (env : Env) (key : string * string) : M unit :=
  call (DynamoDeleteItem key) (deleteItemFails env)
    (fun w => (tt, setTable (delete key (table w)) w)).

(** *** Warm-up *)

(* setupLeaderboardExpiry sets up the expiry for a leaderboard Redis key *)
Definition setupLeaderboardExpiry (env : Env) (redisKey : string)
    (leaderboardEndTime : Time) (pipe : list Cmd) : list Cmd :=
  (* Calculate time until expiry (24 hours after leaderboardEndTime) *)
  let expiryTime := time.Add leaderboardEndTime (24 * time.Hour)%Z in
  let now := clock env in
  (* Only set expiry if it's in the future *)
  if time.After expiryTime now then
    let expiryDuration := time.Sub expiryTime now in
    pipe ++ [Expire redisKey expiryDuration]
  else pipe.

(** [processPage]: the items of a page are queued, unless the page fails
    to unmarshal, in which case it is skipped.  (An item carries a string
    [namespacedUserID] and a number [score], so the two type assertions of
    the source succeed.) *)
Definition processPage (env : Env) (redisKey : string) (k : nat)
    (page : list dynamodb.Item) (pipe : list Cmd) : list Cmd :=
  if unmarshalFails env k then pipe
  else pipe ++ ((fun it => ZAdd redisKey
                  {| Score := dynamodb.score it;
                     Member := dynamodb.namespacedUserID it |}) <$> page).

(** The paginator loop of [syncLeaderboard] over the pages that remain,
    [k] being the number of the next one.  [processPage] answers [!lastPage],
    or [true] after a failed unmarshal; the loop ends with the last page
    either way.  The pipeline is the caller's: what was queued before a
    failing page request stays queued. *)
Fixpoint scanPages (env : Env) (leaderboardID redisKey : string) (k : nat)
    (remaining : list (list dynamodb.Item)) (pipe : list Cmd) (w : World)
    : (list Cmd * option error) * World :=
  match remaining with
  | [] => ((pipe, None), w)
  | page :: rest =>
      let w := record (DynamoQuery leaderboardID k) w in
      if queryFails env k then
        ((pipe, Some (Wrapf "failed to query DynamoDB table" store_error)), w)
      else
        scanPages env leaderboardID redisKey (S k) rest
          (processPage env redisKey k page pipe) w
  end.

(* syncLeaderboard synchronizes the leaderboard data from DynamoDB to Redis *)
Definition syncLeaderboard (env : Env) (leaderboardID : string) (pipe : list Cmd)
    (w : World) : (list Cmd * option error) * World :=
  let redisKey := getRedisKey leaderboardID in
  (* Clear existing sorted set *)
  let pipe := pipe ++ [Del redisKey] in
  scanPages env leaderboardID redisKey 0
    (dynamodb.pages (pageLimit env) (dynamodb.partition leaderboardID (table w)))
    pipe w.

(* ensureLeaderboardExists checks if the Redis key exists, creates it if
   needed, and sets up expiry *)
Definition ensureLeaderboardExists (env : Env) (leaderboardID : string)
    (leaderboardEndTime : Time) : M unit :=
  let redisKey := getRedisKey leaderboardID in
  fun w =>
    let w := record (CallEnsure leaderboardID) w in
    (* Check if the sorted set exists *)
    match wrap "failed to check if Redis key exists" (Exists env redisKey) w with
    | (Err e, w) => (Err e, w)
    | (Ok exists_, w) =>
        (* If the sorted set doesn't exist, try to create it *)
        if (exists_ =? 0)%Z then
          (* Create a pipeline for Redis operations *)
          let pipe := [] in
          (* Try to sync data from DynamoDB *)
          let '((pipe, err), w) := syncLeaderboard env leaderboardID pipe w in
          let pipe :=
            match err with
            | Some _ =>
                (* If sync fails, create an empty sorted set *)
                pipe ++ [ZAdd redisKey Z0]
            | None => pipe
            end in
          (* Set up expiry for the leaderboard *)
          let pipe := setupLeaderboardExpiry env redisKey leaderboardEndTime pipe in
          (* Execute all Redis operations *)
          wrap "failed to execute Redis pipeline" (Exec env (warmExecFails env) pipe) w
        else (Ok tt, w)
    end.

(** *** The score ledger *)

(** [participants[i] = MemberScore{Member, Score, Rank: int64(i + 1)}] *)
Fixpoint withRanks (i : nat) (results : list ZPair) : list customTypes.MemberScore :=
  match results with
  | [] => []
  | result :: rest =>
      {| customTypes.Member := Member result;
         customTypes.Score := Score result;
         customTypes.Rank := Z.of_nat i + 1 |} :: withRanks (S i) rest
  end.

(* GetTopNParticipants retrieves the top N participants from Redis *)
Definition GetTopNParticipants (env : Env) (leaderboardID : string) (n : Z)
    (leaderboardEndTime : Time) : M (list customTypes.MemberScore) :=
  let redisKey := getRedisKey leaderboardID in
  (* Ensure the leaderboard exists in Redis *)
  ensureLeaderboardExists env leaderboardID leaderboardEndTime;;
  (* Get top N participants from Redis *)
  results ← wrap "failed to get top N participants from Redis"
               (ZRevRangeWithScores env redisKey 0 (int64 (n - 1)));
  (* Convert to MemberScore slice with ranks *)
  ret (withRanks 0 results).

(* GetParticipantScoreAndRank retrieves a specific participant's score and
   rank from Redis *)
Definition GetParticipantScoreAndRank (env : Env) (leaderboardID namespacedUserID : string)
    (leaderboardEndTime : Time) : M customTypes.MemberScore :=
  let redisKey := getRedisKey leaderboardID in
  (* Ensure the leaderboard exists in Redis *)
  ensureLeaderboardExists env leaderboardID leaderboardEndTime;;
  (* Get the participant's score *)
  score ← (fun w =>
              match ZScore env redisKey namespacedUserID w with
              | (Err redis_Nil, w) => (Err (Errorf "participant not found in leaderboard"), w)
              | (Err e, w) => (Err (Wrapf "failed to get participant score" e), w)
              | (Ok x, w) => (Ok x, w)
              end);
  (* Get the participant's rank (0-based, so add 1 for human-readable rank) *)
  rank ← wrap "failed to get participant rank" (ZRevRank env redisKey namespacedUserID);
  ret {| customTypes.Member := namespacedUserID;
         customTypes.Score := score;
         customTypes.Rank := rank + 1 |}.

(** The keys and items of the table are marshalled from strings and from a
    [ParticipantModel]; [attributevalue.MarshalMap] does not fail on those, so
    the returns on a marshalling error are left out below. *)

(* UpdateScore updates a participant's score in both DynamoDB and Redis *)
Definition UpdateScore (env : Env) (leaderboardID namespacedUserID : string)
    (scoreDelta : float) (leaderboardEndTime : Time) : M unit :=
  let redisKey := getRedisKey leaderboardID in
  let dynamoKey := (leaderboardID, namespacedUserID) in
  let now := clock env in
  (* Update DynamoDB *)
  wrap "failed to update score in DynamoDB"
    (UpdateItem env dynamoKey (fmtF env scoreDelta) now);;
  (* Create a pipeline for Redis operations; update Redis sorted set *)
  let pipe := [ZIncrBy redisKey scoreDelta namespacedUserID] in
  (* Ensure Redis key exists and has proper expiry *)
  ensureLeaderboardExists env leaderboardID leaderboardEndTime;;
  (* Execute all Redis operations *)
  wrap "failed to update Redis sorted set" (Exec env (execFails env) pipe).

(** The item [JoinLeaderboard] puts: the marshalled participant with the
    added [created_at]. *)
Definition itemOf (p : models.ParticipantModel) : dynamodb.Item :=
  {| dynamodb.leaderboardID := models.LeaderboardID p;
     dynamodb.namespacedUserID := models.NamespacedUserID p;
     dynamodb.clientID := Some (models.ClientID p);
     dynamodb.userID := Some (models.UserID p);
     dynamodb.score := models.Score p;
     dynamodb.updatedAt := Some (models.UpdatedAt p);
     dynamodb.updated_at := None;
     dynamodb.created_at := Some (time.Unix (models.UpdatedAt p)) |}.

Definition setUpdatedAt (t : Time) (p : models.ParticipantModel) : models.ParticipantModel :=
  {| models.LeaderboardID := models.LeaderboardID p;
     models.NamespacedUserID := models.NamespacedUserID p;
     models.ClientID := models.ClientID p;
     models.UserID := models.UserID p;
     models.Score := models.Score p;
     models.UpdatedAt := t |}.

(* JoinLeaderboard adds a participant to the leaderboard.  (The new
   [UpdatedAt] is also written to the caller's participant, which no caller
   in these packages reads afterwards.) *)
Definition JoinLeaderboard (env : Env) (participant : models.ParticipantModel)
    (leaderboardEndTime : Time) : M unit :=
  let redisKey := getRedisKey (models.LeaderboardID participant) in
  (* Check if the participant already exists in DynamoDB *)
  let dynamoKey := (models.LeaderboardID participant, models.NamespacedUserID participant) in
  (* Check if the participant exists *)
  _ ← wrap "failed to check if participant exists" (GetItem env dynamoKey);
  (* Update the participant's timestamp *)
  let participant := setUpdatedAt (clock env) participant in
  (* Marshal the participant model directly; add created_at field *)
  let item := itemOf participant in
  (* Put the item in DynamoDB *)
  wrap "failed to put item in DynamoDB" (PutItem env item);;
  (* Create a pipeline for Redis operations; add the participant to the
     Redis sorted set *)
  let pipe := [ZAdd redisKey {| Score := models.Score participant;
                                Member := models.NamespacedUserID participant |}] in
  (* Ensure Redis key exists and has proper expiry *)
  ensureLeaderboardExists env (models.LeaderboardID participant) leaderboardEndTime;;
  (* Execute all Redis operations *)
  wrap "failed to update Redis sorted set" (Exec env (execFails env) pipe).

(* LeaveLeaderboard removes a participant from the leaderboard *)
Definition LeaveLeaderboard (env : Env) (leaderboardID namespacedUserID : string) : M unit :=
  let redisKey := getRedisKey leaderboardID in
  (* Remove the participant from the Redis sorted set *)
  let pipe := [ZRem redisKey namespacedUserID] in
  (* Execute Redis operations *)
  wrap "failed to remove participant from Redis sorted set"
    (Exec env (execFails env) pipe);;
  (* Remove the participant from DynamoDB *)
  let dynamoKey := (leaderboardID, namespacedUserID) in
  wrap "failed to delete participant from DynamoDB" (DeleteItem env dynamoKey).

End repos.

(** ** Package [leaderboard]: the helper bound to one client and one leaderboard *)

Module leaderboard.


(* IndividualLeaderboardHelper handles the business logic for leaderboard operations *)
Record IndividualLeaderboardHelper := mkHelper {
  clientID : string;
  leaderboardID : string;
  leaderboardEndTime : Time
}.

(* validateNamespacedUserID validates and splits the namespacedUserID *)
Definition validateNamespacedUserID (namespacedUserID : string) : Result (string * string) :=
  let '(clientID, userID) := models.SplitNamespacedUserID namespacedUserID in
  if String.eqb clientID "" || String.eqb userID "" then
    Err (Errorf "invalid namespaced user ID format")
  else Ok (clientID, userID).

Definition lift {A} (r : Result A) : M A := fun w => (r, w).

(* UpdateScore updates a participant's score in the leaderboard *)
Definition UpdateScore (l : IndividualLeaderboardHelper) (env : Env)
    (namespacedUserID : string) (scoreDelta : float) : M unit :=
  '(_, userID) ← lift (validateNamespacedUserID namespacedUserID);
  let participant :=
    models.NewParticipantModel (clock env) (leaderboardID l) (clientID l) userID scoreDelta in
  repos.UpdateScore env (leaderboardID l)
    (models.NamespacedUserID participant) (models.Score participant)
    (leaderboardEndTime l).

(* GetTopNParticipants retrieves the top N participants from the leaderboard *)
Definition GetTopNParticipants (l : IndividualLeaderboardHelper) (env : Env) (n : Z)
    : M (list customTypes.MemberScore) :=
  repos.GetTopNParticipants env (leaderboardID l) n (leaderboardEndTime l).

(* GetParticipantScoreAndRank retrieves a specific participant's score and
   rank from the leaderboard *)
Definition GetParticipantScoreAndRank (l : IndividualLeaderboardHelper) (env : Env)
    (namespacedUserID : string) : M customTypes.MemberScore :=
  _ ← lift (validateNamespacedUserID namespacedUserID);
  repos.GetParticipantScoreAndRank env (leaderboardID l) namespacedUserID
    (leaderboardEndTime l).

End leaderboard.

(** ** Vocabulary of the properties *)

(** The calls an operation adds to the trace of the world it starts in. *)
Definition eventsOf {A} (m : M A) (w : World) : list Event :=
  drop (length (trace w)) (trace (after m w)).

(** The number of scans of the authoritative store begun in a trace: the
    requests for a first page. *)
Fixpoint scans (evs : list Event) : nat :=
  match evs with
  | [] => 0
  | DynamoQuery _ 0 :: rest => S (scans rest)
  | _ :: rest => scans rest
  end.

(** An operation that calls the warm-up before anything else. *)
Definition ensureFirst (evs : list Event) : bool :=
  match evs with
  | CallEnsure _ :: _ => true
  | _ => false
  end.

(** The leaderboard end time plus 24 hours, in nanoseconds. *)
Definition expiryDeadline (leaderboardEndTime : Time) : Time :=
  (leaderboardEndTime + 24 * 3600 * 1000000000)%Z.

(** The expiry command of a warm-up batch, when there is one. *)
Definition expiryPart (env : Env) (key : string) (leaderboardEndTime : Time)
    : list redis.Cmd :=
  if (clock env <? expiryDeadline leaderboardEndTime)%Z
  then [redis.Expire key (expiryDeadline leaderboardEndTime - clock env)%Z]
  else [].

(** The placeholder of a warm-up batch, when the scan failed. *)
Definition placeholderPart (err : option error) : list redis.ZPair :=
  match err with Some _ => [redis.Z0] | None => [] end.

(** The sorted set that a run of [ZAdd]s makes of [m]. *)
Definition addAll (m : gmap string float) (zs : list redis.ZPair) : gmap string float :=
  foldl (fun m z => <[redis.Member z := redis.Score z]> m) m zs.

(** The world of a warm-up once it has asked whether the key exists. *)
Definition afterExists (leaderboardID : string) (w : World) : World :=
  record (RedisExists (repos.getRedisKey leaderboardID)) (record (CallEnsure leaderboardID) w).

(** The batch a warm-up submits, from what the scan queued and returned. *)
Definition warmBatch (env : Env) (leaderboardID : string) (leaderboardEndTime : Time)
    (syncPipe : list redis.Cmd) (syncErr : option error) : list redis.Cmd :=
  let key := repos.getRedisKey leaderboardID in
  repos.setupLeaderboardExpiry env key leaderboardEndTime
    (match syncErr with
     | Some _ => syncPipe ++ [redis.ZAdd key redis.Z0]
     | None => syncPipe
     end).

(** A namespaced user ID in the expected format: one separator, found the way
    [strings.Count] counts, between two non-empty components that hold none. *)
Definition wellFormed (namespacedUserID : string) : Prop :=
  strings.Count namespacedUserID "___" = 1 /\
  exists clientID userID,
    namespacedUserID = clientID +:+ "___" +:+ userID /\
    clientID <> "" /\ userID <> "" /\
    strings.Contains clientID "___" = false /\
    strings.Contains userID "___" = false.

(** *** Sample surroundings and worlds *)

(** No call fails; pages of two items. *)
Definition calm (now : Time) : Env :=
  {| clock := now; fmtF := fun x => x; pageLimit := 1;
     queryFails := fun _ => false; unmarshalFails := fun _ => false;
     existsFails := false; warmExecFails := false; execFails := false;
     zrevrangeFails := false; zscoreFails := false; zrevrankFails := false;
     getItemFails := false; putItemFails := false; updateItemFails := false;
     deleteItemFails := false |}.

(** The table cannot be queried; every other call succeeds. *)
Definition tableDown (now : Time) : Env :=
  {| clock := now; fmtF := fun x => x; pageLimit := 1;
     queryFails := fun _ => true; unmarshalFails := fun _ => false;
     existsFails := false; warmExecFails := false; execFails := false;
     zrevrangeFails := false; zscoreFails := false; zrevrankFails := false;
     getItemFails := false; putItemFails := false; updateItemFails := false;
     deleteItemFails := false |}.

Definition emptyWorld : World := mkWorld ∅ ∅ [].

(** One participant with score 50, in the table and in a warm cache. *)
Definition aliceItem : dynamodb.Item :=
  {| dynamodb.leaderboardID := "lb";
     dynamodb.namespacedUserID := "kgen___alice";
     dynamodb.clientID := Some "kgen";
     dynamodb.userID := Some "alice";
     dynamodb.score := 50;
     dynamodb.updatedAt := Some 10%Z;
     dynamodb.updated_at := None;
     dynamodb.created_at := Some 0%Z |}.

Definition seeded : World :=
  mkWorld {[ ("lb", "kgen___alice") := aliceItem ]}
          {[ "leaderboard:lb" := redis.mkEntry {[ "kgen___alice" := 50%float ]} None ]}
          [].

(** The same table behind a cold cache. *)
Definition seededCold : World :=
  mkWorld {[ ("lb", "kgen___alice") := aliceItem ]} ∅ [].

Definition helperKgen : leaderboard.IndividualLeaderboardHelper :=
  {| leaderboard.clientID := "kgen";
     leaderboard.leaderboardID := "lb";
     leaderboard.leaderboardEndTime := 5000%Z |}.

(** ** Vocabulary of the scan, the table and the batches *)

(** The member that a table item becomes in the cache. *)
Definition itemZ (it : dynamodb.Item) : redis.ZPair :=
  {| redis.Score := dynamodb.score it; redis.Member := dynamodb.namespacedUserID it |}.

(** What the paginator loop queues over the pages that remain, and the error
    it returns. *)
Fixpoint queued (env : Env) (k : nat) (remaining : list (list dynamodb.Item)) : list redis.ZPair :=
  match remaining with
  | [] => []
  | page :: rest =>
      if queryFails env k then []
      else (if unmarshalFails env k then [] else itemZ <$> page) ++ queued env (S k) rest
  end.

Fixpoint scanError (env : Env) (k : nat) (remaining : list (list dynamodb.Item)) : option error :=
  match remaining with
  | [] => None
  | _ :: rest =>
      if queryFails env k then Some (Wrapf "failed to query DynamoDB table" store_error)
      else scanError env (S k) rest
  end.

(** The pages a scan of the leaderboard reads in world [w]. *)
Definition pagesOf (env : Env) (leaderboardID : string) (w : World) : list (list dynamodb.Item) :=
  dynamodb.pages (pageLimit env) (dynamodb.partition leaderboardID (table w)).

(** Every item is stored under the key its own attributes spell, as the
    table's key schema has it. *)
Definition consistent (t : gmap (string * string) dynamodb.Item) : Prop :=
  forall key it, t !! key = Some it -> dynamodb.keyOf it = key.

(** No page request fails and every page unmarshals. *)
Definition cleanScan (env : Env) : Prop :=
  forall k, queryFails env k = false /\ unmarshalFails env k = false.

(** The key a command acts on. *)
Definition cmdKey (c : redis.Cmd) : string :=
  match c with
  | redis.Del key | redis.ZAdd key _ | redis.ZIncrBy key _ _ | redis.ZRem key _
  | redis.Expire key _ => key
  end.

(** The cache cannot be reached for the check of the key. *)
Definition cacheDown (now : Time) : Env :=
  {| clock := now; fmtF := fun x => x; pageLimit := 1;
     queryFails := fun _ => false; unmarshalFails := fun _ => false;
     existsFails := true; warmExecFails := false; execFails := false;
     zrevrangeFails := false; zscoreFails := false; zrevrankFails := false;
     getItemFails := false; putItemFails := false; updateItemFails := false;
     deleteItemFails := false |}.

(** The operation's own batch cannot be submitted. *)
Definition execDown (now : Time) : Env :=
  {| clock := now; fmtF := fun x => x; pageLimit := 1;
     queryFails := fun _ => false; unmarshalFails := fun _ => false;
     existsFails := false; warmExecFails := false; execFails := true;
     zrevrangeFails := false; zscoreFails := false; zrevrankFails := false;
     getItemFails := false; putItemFails := false; updateItemFails := false;
     deleteItemFails := false |}.

(** * Properties *)

Import redis repos.

(** ** Byte strings and the separator *)

Section StringFacts.

Implicit Types s t p sep c u : string.

Lemma append_cons a s t : String a s +:+ t = String a (s +:+ t).
Proof. reflexivity. Qed.

Lemma append_nil t : "" +:+ t = t.
Proof. reflexivity. Qed.

Ltac str_simpl := repeat (rewrite ?append_cons, ?append_nil; simpl).

Lemma HasPrefix_nil_l p : p <> "" -> strings.HasPrefix "" p = false.
Proof. destruct p; simpl; congruence. Qed.

Lemma HasPrefix_app s t p :
  strings.HasPrefix s p = true -> strings.HasPrefix (s +:+ t) p = true.
Proof.
  revert s. induction p as [|b p IH]; intros [|a s]; str_simpl; try done.
  destruct (Ascii.eqb a b); [apply IH | done].
Qed.

Lemma HasPrefix_length s p :
  strings.HasPrefix s p = true -> String.length p <= String.length s.
Proof.
  revert s. induction p as [|b p IH]; intros [|a s]; simpl; try done; try lia.
  destruct (Ascii.eqb a b); [|done]. intros H%IH. lia.
Qed.

Lemma HasPrefix_split s p :
  strings.HasPrefix s p = true -> s = p +:+ strings.drop (String.length p) s.
Proof.
  revert s. induction p as [|b p IH]; intros [|a s]; simpl; try done.
  destruct (Ascii.eqb_spec a b) as [->|]; [|done]. intros H%IH. str_simpl. by f_equal.
Qed.

Lemma HasPrefix_self_app p t : strings.HasPrefix (p +:+ t) p = true.
Proof. induction p as [|b p IH]; str_simpl; [done|]. by rewrite Ascii.eqb_refl. Qed.

Lemma str_take_app s t : strings.take (String.length s) (s +:+ t) = s.
Proof. induction s; str_simpl; [by destruct t | by f_equal]. Qed.

Lemma str_drop_app s t : strings.drop (String.length s) (s +:+ t) = t.
Proof. induction s; str_simpl; done. Qed.

Lemma str_drop_add n m s : strings.drop (n + m) s = strings.drop m (strings.drop n s).
Proof.
  revert s. induction n as [|n IH]; intros s; simpl; [done|].
  destruct s; simpl; [by destruct m | apply IH].
Qed.

Lemma str_drop_length n s : String.length (strings.drop n s) <= String.length s - n.
Proof.
  revert s. induction n as [|n IH]; intros [|a s]; simpl; try lia. apply IH.
Qed.

Lemma str_take_drop n s : s = strings.take n s +:+ strings.drop n s.
Proof. revert s. induction n as [|n IH]; intros [|a s]; str_simpl; try done. by f_equal. Qed.

Lemma str_length_app s t : String.length (s +:+ t) = String.length s + String.length t.
Proof. induction s; str_simpl; lia. Qed.

(** *** [Index] finds an instance, and the leftmost one *)

Lemma Index_Some s sep m :
  strings.Index s sep = Some m ->
  strings.HasPrefix (strings.drop m s) sep = true /\ m + String.length sep <= String.length s.
Proof.
  revert m. induction s as [|a s IH]; intros m; cbn [strings.Index].
  - destruct (strings.HasPrefix "" sep) eqn:E; [|done].
    intros [= <-]. split; [done|]. apply HasPrefix_length in E. simpl in *. lia.
  - destruct (strings.HasPrefix (String a s) sep) eqn:E.
    + intros [= <-]. split; [done|]. apply HasPrefix_length in E. lia.
    + destruct (strings.Index s sep) as [k|] eqn:Ek; [|done].
      intros [= <-]. destruct (IH k eq_refl) as [? ?]. split; [done | simpl; lia].
Qed.

Lemma Index_split s sep m :
  strings.Index s sep = Some m ->
  s = strings.take m s +:+ sep +:+ strings.drop (m + String.length sep) s.
Proof.
  intros [H _]%Index_Some. rewrite str_drop_add, <- (HasPrefix_split _ _ H).
  apply str_take_drop.
Qed.

Lemma Index_take s sep m :
  sep <> "" -> strings.Index s sep = Some m -> strings.Index (strings.take m s) sep = None.
Proof.
  intros Hsep. revert m. induction s as [|a s IH]; intros m; cbn [strings.Index].
  - destruct (strings.HasPrefix "" sep) eqn:E; [|done].
    intros [= <-]. simpl. by rewrite HasPrefix_nil_l.
  - destruct (strings.HasPrefix (String a s) sep) eqn:E.
    + intros [= <-]. simpl. by rewrite HasPrefix_nil_l.
    + destruct (strings.Index s sep) as [k|] eqn:Ek; [|done].
      intros [= <-]. cbn [strings.take strings.Index].
      rewrite (IH k eq_refl).
      destruct (strings.HasPrefix (String a (strings.take k s)) sep) eqn:E'; [|done].
      apply (HasPrefix_app _ (strings.drop k s)) in E'.
      change (String a (strings.take k s) +:+ strings.drop k s)
        with (String a (strings.take k s +:+ strings.drop k s)) in E'.
      rewrite <- str_take_drop in E'. congruence.
Qed.

Lemma Index_None_genSplit n s sep :
  strings.Index s sep = None -> strings.genSplit n s sep = [s].
Proof. intros H. destruct n; simpl; [done | by rewrite H]. Qed.

Lemma Index_None_countLoop n s sep :
  strings.Index s sep = None -> strings.countLoop n s sep = 0.
Proof. intros H. destruct n; simpl; [done | by rewrite H]. Qed.

(** *** The loop bound [len(s)] is never the reason the loops stop *)

Lemma genSplit_fuel sep : sep <> "" -> forall n m s,
  String.length s <= n -> String.length s <= m ->
  strings.genSplit n s sep = strings.genSplit m s sep.
Proof.
  intros Hsep. assert (1 <= String.length sep) by (destruct sep; simpl; [done | lia]).
  induction n as [|n IH]; intros m s Hn Hm.
  - destruct s; [|simpl in Hn; lia]. rewrite !Index_None_genSplit; auto;
      simpl; by rewrite HasPrefix_nil_l.
  - destruct m as [|m].
    + destruct s; [|simpl in Hm; lia]. rewrite !Index_None_genSplit; auto;
        simpl; by rewrite HasPrefix_nil_l.
    + simpl. destruct (strings.Index s sep) as [k|] eqn:Ek; [|done].
      apply Index_Some in Ek as [_ Hk].
      pose proof (str_drop_length (k + String.length sep) s).
      f_equal. apply IH; lia.
Qed.

Lemma countLoop_fuel sep : sep <> "" -> forall n m s,
  String.length s <= n -> String.length s <= m ->
  strings.countLoop n s sep = strings.countLoop m s sep.
Proof.
  intros Hsep. assert (1 <= String.length sep) by (destruct sep; simpl; [done | lia]).
  induction n as [|n IH]; intros m s Hn Hm.
  - destruct s; [|simpl in Hn; lia]. rewrite !Index_None_countLoop; auto;
      simpl; by rewrite HasPrefix_nil_l.
  - destruct m as [|m].
    + destruct s; [|simpl in Hm; lia]. rewrite !Index_None_countLoop; auto;
        simpl; by rewrite HasPrefix_nil_l.
    + simpl. destruct (strings.Index s sep) as [k|] eqn:Ek; [|done].
      apply Index_Some in Ek as [_ Hk].
      pose proof (str_drop_length (k + String.length sep) s).
      f_equal. apply IH; lia.
Qed.

(** [Split] and [Count] unfold as Go's loops do. *)
Lemma Split_Some s sep m :
  sep <> "" -> strings.Index s sep = Some m ->
  strings.Split s sep
  = strings.take m s :: strings.Split (strings.drop (m + String.length sep) s) sep.
Proof.
  intros Hsep Hm. unfold strings.Split.
  pose proof (Index_Some _ _ _ Hm) as [_ Hk].
  assert (1 <= String.length sep) by (destruct sep; simpl; [done | lia]).
  pose proof (str_drop_length (m + String.length sep) s).
  destruct (String.length s) as [|n] eqn:En; [lia|].
  simpl. rewrite Hm. f_equal. apply genSplit_fuel; [done | lia | lia].
Qed.

Lemma Split_None s sep : strings.Index s sep = None -> strings.Split s sep = [s].
Proof. apply Index_None_genSplit. Qed.

Lemma Count_Some s sep m :
  sep <> "" -> strings.Index s sep = Some m ->
  strings.Count s sep = S (strings.Count (strings.drop (m + String.length sep) s) sep).
Proof.
  intros Hsep Hm. unfold strings.Count.
  pose proof (Index_Some _ _ _ Hm) as [_ Hk].
  assert (1 <= String.length sep) by (destruct sep; simpl; [done | lia]).
  pose proof (str_drop_length (m + String.length sep) s).
  destruct (String.length s) as [|n] eqn:En; [lia|].
  simpl. rewrite Hm. f_equal. apply countLoop_fuel; [done | lia | lia].
Qed.

Lemma Count_None s sep : strings.Index s sep = None -> strings.Count s sep = 0.
Proof. apply Index_None_countLoop. Qed.

Lemma Split_length s sep :
  sep <> "" -> length (strings.Split s sep) = S (strings.Count s sep).
Proof.
  intros Hsep. unfold strings.Split, strings.Count.
  generalize (String.length s). intros n. revert s.
  induction n as [|n IH]; intros s; simpl; [done|].
  destruct (strings.Index s sep); simpl; [by rewrite IH | done].
Qed.


(** *** The separator of namespaced IDs *)

Lemma Contains_false s sep : strings.Contains s sep = false <-> strings.Index s sep = None.
Proof. unfold strings.Contains. destruct (strings.Index s sep); split; congruence. Qed.

Lemma Index_leftmost s sep i :
  strings.HasPrefix (strings.drop i s) sep = true ->
  exists m, strings.Index s sep = Some m /\ m <= i.
Proof.
  revert s. induction i as [|i IH]; intros s H.
  - exists 0. split; [|lia]. destruct s; simpl in *; by rewrite H.
  - destruct s as [|a s].
    + exists 0. split; [|lia]. simpl in *. by rewrite H.
    + simpl in H. destruct (IH s H) as (m & Hm & Hle).
      cbn [strings.Index]. destruct (strings.HasPrefix (String a s) sep).
      * exists 0. split; [done | lia].
      * exists (S m). rewrite Hm. split; [done | lia].
Qed.

Lemma str_take_length n s : String.length (strings.take n s) <= n.
Proof. revert s. induction n; intros [|a s]; simpl; try lia. specialize (IHn s). lia. Qed.

Lemma HasSuffix_cons a c :
  strings.HasSuffix (String a c) "_" = false ->
  String a c <> "_" /\ strings.HasSuffix c "_" = false.
Proof.
  cbn [strings.HasSuffix]. destruct (String.eqb_spec (String a c) "_"); [done|].
  by destruct c.
Qed.

Lemma Index_create c u :
  strings.Contains c "___" = false -> strings.HasSuffix c "_" = false ->
  strings.Index (c +:+ "___" +:+ u) "___" = Some (String.length c).
Proof.
  rewrite Contains_false. induction c as [|a c IH]; intros Hc Hs.
  - reflexivity.
  - apply HasSuffix_cons in Hs as [Hne Hs].
    cbn [strings.Index] in Hc.
    destruct (strings.HasPrefix (String a c) "___") eqn:Hp; [done|].
    destruct (strings.Index c "___") eqn:Hi; [done|].
    rewrite append_cons. cbn [strings.Index]. rewrite (IH eq_refl Hs).
    replace (strings.HasPrefix (String a (c +:+ "___" +:+ u)) "___") with false; [done|].
    symmetry. clear IH Hi Hc. simpl in *.
    destruct (Ascii.eqb_spec a "_") as [->|]; [|done].
    destruct c as [|b c]; [done|]. str_simpl.
    destruct (Ascii.eqb_spec b "_") as [->|]; [|done].
    destruct c as [|d c]; [done|]. str_simpl. simpl in Hp.
    by destruct (Ascii.eqb d "_").
Qed.

Lemma HasSuffix_instance c u :
  strings.HasSuffix c "_" = true ->
  exists i, i < String.length c /\
    strings.HasPrefix (strings.drop i (c +:+ "___" +:+ u)) "___" = true.
Proof.
  induction c as [|a c IH]; [done|]. cbn [strings.HasSuffix].
  destruct (String.eqb_spec (String a c) "_") as [E|_].
  - intros _. injection E as -> ->. exists 0. split; [simpl; lia | done].
  - intros (i & Hi & H)%IH. exists (S i). split; [simpl; lia | done].
Qed.

End StringFacts.

Lemma sep_nonempty : "___" <> "".
Proof. done. Qed.

Lemma Split_sep s m :
  strings.Index s "___" = Some m ->
  strings.Split s "___" = strings.take m s :: strings.Split (strings.drop (m + 3) s) "___".
Proof. apply (Split_Some s "___" m sep_nonempty). Qed.

Lemma Count_sep s m :
  strings.Index s "___" = Some m ->
  strings.Count s "___" = S (strings.Count (strings.drop (m + 3) s) "___").
Proof. apply (Count_Some s "___" m sep_nonempty). Qed.

Lemma Split_two s c u :
  strings.Split s "___" = [c; u] ->
  s = c +:+ "___" +:+ u /\ strings.Count s "___" = 1 /\
  strings.Contains c "___" = false /\ strings.Contains u "___" = false.
Proof.
  intros H. destruct (strings.Index s "___") as [m|] eqn:Hm.
  - rewrite (Split_sep _ _ Hm) in H. injection H as Hc Hrest.
    destruct (strings.Index (strings.drop (m + 3) s) "___") as [k|] eqn:Hk.
    + rewrite (Split_sep _ _ Hk) in Hrest. injection Hrest as _ Hnil.
      pose proof (Split_length (strings.drop (k + 3) (strings.drop (m + 3) s)) "___"
                    sep_nonempty) as Hl.
      rewrite Hnil in Hl. done.
    + rewrite (Split_None _ _ Hk) in Hrest. injection Hrest as Hu.
      repeat split.
      * rewrite <- Hc, <- Hu. by apply (Index_split s "___" m).
      * by rewrite (Count_sep _ _ Hm), (Count_None _ _ Hk).
      * rewrite <- Hc. apply Contains_false. by apply Index_take.
      * rewrite <- Hu. by apply Contains_false.
  - rewrite (Split_None _ _ Hm) in H. done.
Qed.

Lemma validate_Ok s c u :
  leaderboard.validateNamespacedUserID s = Ok (c, u) ->
  strings.Split s "___" = [c; u] /\ c <> "" /\ u <> "".
Proof.
  unfold leaderboard.validateNamespacedUserID, models.SplitNamespacedUserID.
  destruct (strings.Split s "___") as [|p0 [|p1 [|p2 l]]]; try done.
  destruct (String.eqb_spec p0 ""); [done|].
  destruct (String.eqb_spec p1 ""); [done|].
  simpl. by intros [= -> ->].
Qed.

Lemma validate_Err s e :
  leaderboard.validateNamespacedUserID s = Err e ->
  e = Errorf "invalid namespaced user ID format".
Proof.
  unfold leaderboard.validateNamespacedUserID.
  destruct (models.SplitNamespacedUserID s) as [c u].
  destruct (_ || _); congruence.
Qed.

(** Claim C3, as amended.  Composing a namespaced user ID with
    [CreateNamespacedUserID] and splitting it with [SplitNamespacedUserID]
    gives back the pair (clientID, userID) whenever neither component contains
    the separator "___" and, in addition, clientID does not end in "_". *)
Theorem roundtrip clientID userID :
  strings.Contains clientID "___" = false ->
  strings.Contains userID "___" = false ->
  strings.HasSuffix clientID "_" = false ->
  models.SplitNamespacedUserID (models.CreateNamespacedUserID clientID userID)
  = (clientID, userID).
Proof.
  intros Hc Hu Hs. unfold models.SplitNamespacedUserID, models.CreateNamespacedUserID.
  rewrite (Split_sep _ _ (Index_create clientID userID Hc Hs)).
  rewrite str_take_app, str_drop_add, str_drop_app.
  change (strings.drop 3 ("___" +:+ userID)) with userID.
  apply Contains_false in Hu. by rewrite (Split_None _ _ Hu).
Qed.

Lemma roundtrip_trailing_underscore clientID userID :
  strings.HasSuffix clientID "_" = true ->
  models.SplitNamespacedUserID (models.CreateNamespacedUserID clientID userID)
  <> (clientID, userID).
Proof.
  intros Hs. destruct (HasSuffix_instance clientID userID Hs) as (i & Hi & Hp).
  destruct (Index_leftmost _ _ _ Hp) as (m & Hm & Hle).
  unfold models.SplitNamespacedUserID, models.CreateNamespacedUserID.
  rewrite (Split_sep _ _ Hm).
  pose proof (str_take_length m (clientID +:+ "___" +:+ userID)) as Hl.
  destruct (strings.Split _ _) as [|p1 [|p2 l]]; intros [= H1 H2];
    rewrite ?H1 in Hl; subst; simpl in *; lia.
Qed.

(** Claim C4.  A string that is not of the form clientID___userID, with one
    separator between two non-empty components, is refused by
    [validateNamespacedUserID] with the invalid-format error; it never yields
    a pair. *)
Theorem invalid_format_fails namespacedUserID :
  ~ wellFormed namespacedUserID ->
  leaderboard.validateNamespacedUserID namespacedUserID
  = Err (Errorf "invalid namespaced user ID format").
Proof.
  intros Hnot.
  destruct (leaderboard.validateNamespacedUserID namespacedUserID) as [[c u]|e] eqn:Hv.
  - destruct Hnot. apply validate_Ok in Hv as (Hsplit & Hc & Hu).
    apply Split_two in Hsplit as (Hs & Hcount & Hcc & Hcu).
    split; [done|]. by exists c, u.
  - f_equal. by apply validate_Err in Hv.
Qed.

(** ** The warm-up of the cache *)

Section Warmup.

Variable env : Env.
Variable leaderboardID : string.
Let key := getRedisKey leaderboardID.

Lemma scanPages_shape remaining : forall k pipe w,
  exists zs j err,
    scanPages env leaderboardID key k remaining pipe w
    = ((pipe ++ (ZAdd key <$> zs), err),
       mkWorld (table w) (cache w) (trace w ++ (DynamoQuery leaderboardID <$> seq k j))).
Proof.
  induction remaining as [|page rest IH]; intros k pipe w; cbn [scanPages].
  - exists [], 0, None. simpl. rewrite !app_nil_r. by destruct w.
  - destruct (queryFails env k).
    + exists [], 1, (Some (Wrapf "failed to query DynamoDB table" store_error)).
      simpl. by rewrite app_nil_r.
    + destruct (IH (S k) (processPage env key k page pipe)
                  (record (DynamoQuery leaderboardID k) w)) as (zs & j & err & ->).
      unfold processPage. destruct (unmarshalFails env k).
      * exists zs, (S j), err. simpl. by rewrite <- app_assoc.
      * exists (((fun it => mkZ (dynamodb.score it) (dynamodb.namespacedUserID it)) <$> page)
                  ++ zs), (S j), err. simpl.
        rewrite fmap_app, <- !app_assoc, <- list_fmap_compose. done.
Qed.

End Warmup.

Section RedisFacts.

Variable now : Time.
Implicit Types db : gmap string Entry.
Implicit Types zs : list ZPair.

Lemma exec_app a b db : exec now (a ++ b) db = exec now b (exec now a db).
Proof. apply foldl_app. Qed.

Lemma exec_one c db : exec now [c] db = apply now db c.
Proof. reflexivity. Qed.

Lemma live_no_deadline db key :
  deadlineOf (db !! key) = None -> live now db key = db !! key.
Proof.
  unfold live, expired. destruct (db !! key) as [e|]; [|done]. simpl. by intros ->.
Qed.

Lemma size_insert_ne0 (m : gmap string float) k x : Nat.eqb (size (<[k := x]> m)) 0 = false.
Proof.
  apply Nat.eqb_neq. intros H%map_size_empty_iff.
  by apply insert_non_empty in H.
Qed.

Lemma apply_ZAdd db key z :
  deadlineOf (db !! key) = None ->
  apply now db (ZAdd key z) !! key
  = Some (mkEntry (<[Member z := Score z]> (members (db !! key))) None).
Proof.
  intros H. cbn [apply]. rewrite (live_no_deadline _ _ H), H.
  unfold store. rewrite size_insert_ne0. by rewrite lookup_insert_eq.
Qed.

Lemma exec_ZAdds zs : forall db key,
  deadlineOf (db !! key) = None ->
  members (exec now (ZAdd key <$> zs) db !! key) = addAll (members (db !! key)) zs /\
  deadlineOf (exec now (ZAdd key <$> zs) db !! key) = None /\
  (zs <> [] -> is_Some (exec now (ZAdd key <$> zs) db !! key)).
Proof.
  induction zs as [|z zs IH]; intros db key H.
  - done.
  - pose proof (apply_ZAdd db key z H) as Hz.
    destruct (IH (apply now db (ZAdd key z)) key) as (Hm & Hd & Hs).
    { by rewrite Hz. }
    change (exec now (ZAdd key <$> z :: zs) db)
      with (exec now (ZAdd key <$> zs) (apply now db (ZAdd key z))).
    rewrite Hm, Hd, Hz. simpl. split; [done|]. split; [done|]. intros _.
    destruct zs as [|z' zs]; [| by apply Hs].
    change (is_Some (apply now db (ZAdd key z) !! key)). by rewrite Hz.
Qed.

Lemma exec_warm key zs db :
  let db' := exec now (Del key :: (ZAdd key <$> zs)) db in
  db' !! key = if zs is [] then None else Some (mkEntry (addAll ∅ zs) None).
Proof.
  simpl. change (foldl (apply now) (apply now db (Del key)) (ZAdd key <$> zs))
    with (exec now (ZAdd key <$> zs) (delete key db)).
  destruct (exec_ZAdds zs (delete key db) key) as (Hm & Hd & Hs).
  { by rewrite lookup_delete_eq. }
  rewrite lookup_delete_eq in Hm. simpl in Hm.
  destruct zs as [|z zs]; [simpl; by rewrite lookup_delete_eq|].
  destruct Hs as [e He]; [done|]. rewrite He in *. simpl in *. destruct e; simpl in *.
  by subst.
Qed.

Lemma apply_Expire db key e d :
  db !! key = Some e -> deadline e = None -> (0 < d)%Z ->
  apply now db (Expire key d) !! key = Some (mkEntry (zset e) (Some (now + d)%Z)).
Proof.
  intros He Hd Hpos. cbn [apply]. rewrite live_no_deadline by (by rewrite He).
  rewrite He. destruct (Z.leb_spec d 0); [lia|]. by rewrite lookup_insert_eq.
Qed.

Lemma apply_Expire_absent db key d :
  db !! key = None -> apply now db (Expire key d) !! key = None.
Proof.
  intros He. cbn [apply]. unfold live. rewrite He. by rewrite lookup_delete_eq.
Qed.

End RedisFacts.

Section WarmBatch.

Variable env : Env.

(** The key after the warm-up batch: the queued members and nothing else,
    with the deadline [leaderboardEndTime + 24h] when that lies ahead. *)
Lemma exec_warm_batch key endT zs db :
  exec (clock env) (setupLeaderboardExpiry env key endT (Del key :: (ZAdd key <$> zs))) db
    !! key
  = if zs is [] then None
    else Some (mkEntry (addAll ∅ zs)
                 (if (clock env <? expiryDeadline endT)%Z
                  then Some (expiryDeadline endT) else None)).
Proof.
  unfold setupLeaderboardExpiry.
  pose proof (exec_warm (clock env) key zs db) as Hw. cbv zeta in Hw.
  change (time.After (time.Add endT (24 * time.Hour)%Z) (clock env))
    with (clock env <? expiryDeadline endT)%Z.
  change (time.Add endT (24 * time.Hour)%Z) with (expiryDeadline endT).
  destruct (clock env <? expiryDeadline endT)%Z eqn:Ha; [|exact Hw].
  rewrite exec_app, exec_one. apply Z.ltb_lt in Ha. unfold time.Sub.
  destruct zs as [|z zs].
  - by apply apply_Expire_absent.
  - erewrite apply_Expire; [| exact Hw | done | lia]. simpl. do 3 f_equal. lia.
Qed.

End WarmBatch.

Section Ensure.

Variable env : Env.
Variable leaderboardID : string.
Variable leaderboardEndTime : Time.
Let key := getRedisKey leaderboardID.

Lemma paginate_nonempty {A} k room (l : list A) : dynamodb.paginate k room l <> [].
Proof.
  revert room. induction l as [|x l IH]; intros room; simpl; [done|].
  destruct room; [done|]. by destruct (dynamodb.paginate k room l).
Qed.

Lemma sync_shape pipe w :
  exists zs j err,
    syncLeaderboard env leaderboardID pipe w
    = ((pipe ++ Del key :: (ZAdd key <$> zs), err),
       mkWorld (table w) (cache w) (trace w ++ (DynamoQuery leaderboardID <$> seq 0 j))).
Proof.
  unfold syncLeaderboard.
  destruct (scanPages_shape env leaderboardID
              (dynamodb.pages (pageLimit env) (dynamodb.partition leaderboardID (table w)))
              0 (pipe ++ [Del key]) w) as (zs & j & err & H).
  exists zs, j, err. unfold key in *. rewrite H. by rewrite <- app_assoc.
Qed.

Lemma sync_first_page_fails pipe w :
  queryFails env 0 = true ->
  syncLeaderboard env leaderboardID pipe w
  = ((pipe ++ [Del key], Some (Wrapf "failed to query DynamoDB table" store_error)),
     record (DynamoQuery leaderboardID 0) w).
Proof.
  intros Hq. unfold syncLeaderboard, dynamodb.pages.
  pose proof (paginate_nonempty (pageLimit env) (S (pageLimit env))
                (dynamodb.partition leaderboardID (table w))) as Hne.
  destruct (dynamodb.paginate _ _ _) as [|page rest]; [done|].
  cbn [scanPages]. by rewrite Hq.
Qed.

(** What a failing scan returns: the error of the page request. *)
Lemma scanPages_error remaining : forall k pipe w pipe' e w',
  scanPages env leaderboardID key k remaining pipe w = ((pipe', Some e), w') ->
  e = Wrapf "failed to query DynamoDB table" store_error.
Proof.
  induction remaining as [|page rest IH]; intros k pipe w pipe' e w'; cbn [scanPages].
  - done.
  - destruct (queryFails env k); [by intros [= _ <- _] | apply IH].
Qed.

Lemma ensure_unfold w :
  ensureLeaderboardExists env leaderboardID leaderboardEndTime w
  = if existsFails env then
      (Err (Wrapf "failed to check if Redis key exists" store_error), afterExists leaderboardID w)
    else if (EXISTS (clock env) (cache w) key =? 0)%Z then
      let '((pipe, err), w1) := syncLeaderboard env leaderboardID [] (afterExists leaderboardID w) in
      let w2 := record (RedisExec (warmBatch env leaderboardID leaderboardEndTime pipe err)) w1 in
      if warmExecFails env then
        (Err (Wrapf "failed to execute Redis pipeline" store_error), w2)
      else (Ok tt, setCache (exec (clock env) (warmBatch env leaderboardID leaderboardEndTime pipe err) (cache w2)) w2)
    else (Ok tt, afterExists leaderboardID w).
Proof.
  unfold ensureLeaderboardExists, wrap, Exists, Exec, call, afterExists, warmBatch.
  fold key. destruct (existsFails env); [done|]. simpl.
  destruct (EXISTS (clock env) (cache w) key =? 0)%Z; [|done].
  destruct (syncLeaderboard _ _ _ _) as [[pipe err] w1].
  by destruct (warmExecFails env).
Qed.

Lemma ensure_table w :
  table (after (ensureLeaderboardExists env leaderboardID leaderboardEndTime) w) = table w.
Proof.
  unfold after. rewrite ensure_unfold.
  destruct (existsFails env); [done|].
  destruct (_ =? _)%Z; [|done].
  destruct (sync_shape [] (afterExists leaderboardID w)) as (zs & j & err & ->).
  by destruct (warmExecFails env).
Qed.

Lemma ensure_events w :
  exists rest,
    trace (after (ensureLeaderboardExists env leaderboardID leaderboardEndTime) w)
    = trace w ++ CallEnsure leaderboardID :: RedisExists key :: rest.
Proof.
  unfold after. rewrite ensure_unfold.
  destruct (existsFails env).
  { exists []. simpl. by rewrite <- app_assoc. }
  destruct (_ =? _)%Z.
  - destruct (sync_shape [] (afterExists leaderboardID w)) as (zs & j & err & ->).
    destruct (warmExecFails env); eexists; simpl; rewrite <- !app_assoc; simpl; done.
  - exists []. simpl. by rewrite <- app_assoc.
Qed.

End Ensure.

Section EnsureOutcome.

Variable env : Env.
Variable leaderboardID : string.
Variable leaderboardEndTime : Time.
Let key := getRedisKey leaderboardID.
Let ensure := ensureLeaderboardExists env leaderboardID leaderboardEndTime.

Lemma setup_expiryPart k pipe :
  setupLeaderboardExpiry env k leaderboardEndTime pipe
  = pipe ++ expiryPart env k leaderboardEndTime.
Proof.
  unfold setupLeaderboardExpiry, expiryPart.
  change (time.After (time.Add leaderboardEndTime (24 * time.Hour)%Z) (clock env))
    with (clock env <? expiryDeadline leaderboardEndTime)%Z.
  destruct (_ <? _)%Z; [done | by rewrite app_nil_r].
Qed.

Lemma warmBatch_shape zs err :
  warmBatch env leaderboardID leaderboardEndTime (Del key :: (ZAdd key <$> zs)) err
  = setupLeaderboardExpiry env key leaderboardEndTime
      (Del key :: (ZAdd key <$> zs ++ placeholderPart err)).
Proof.
  unfold warmBatch. fold key. destruct err; simpl.
  - by rewrite fmap_app.
  - by rewrite app_nil_r.
Qed.

(** A warm-up from a cold cache, in full. *)
Lemma ensure_cold w :
  EXISTS (clock env) (cache w) key = 0%Z -> existsFails env = false ->
  exists zs j err,
    let batch := Del key :: (ZAdd key <$> zs ++ placeholderPart err)
                   ++ expiryPart env key leaderboardEndTime in
    let w0 := afterExists leaderboardID w in
    syncLeaderboard env leaderboardID [] w0
      = ((Del key :: (ZAdd key <$> zs), err),
         mkWorld (table w) (cache w)
           (trace w0 ++ (DynamoQuery leaderboardID <$> seq 0 j))) /\
    runOf ensure w
      = (if warmExecFails env
         then Err (Wrapf "failed to execute Redis pipeline" store_error) else Ok tt) /\
    table (after ensure w) = table w /\
    cache (after ensure w)
      = (if warmExecFails env then cache w else exec (clock env) batch (cache w)) /\
    trace (after ensure w)
      = trace w ++ [CallEnsure leaderboardID; RedisExists key]
          ++ (DynamoQuery leaderboardID <$> seq 0 j) ++ [RedisExec batch].
Proof.
  intros Hcold Hex. unfold runOf, after, ensure. rewrite ensure_unfold.
  fold key. rewrite Hex, Hcold. simpl.
  destruct (sync_shape env leaderboardID [] (afterExists leaderboardID w))
    as (zs & j & err & Hs).
  exists zs, j, err. rewrite Hs. simpl. fold key.
  rewrite warmBatch_shape, setup_expiryPart. split; [done|].
  destruct (warmExecFails env); simpl; rewrite <- !app_assoc; done.
Qed.

Lemma ensure_warm w :
  EXISTS (clock env) (cache w) key = 1%Z ->
  runOf ensure w
    = (if existsFails env
       then Err (Wrapf "failed to check if Redis key exists" store_error) else Ok tt) /\
  table (after ensure w) = table w /\
  cache (after ensure w) = cache w /\
  trace (after ensure w) = trace w ++ [CallEnsure leaderboardID; RedisExists key].
Proof.
  intros Hwarm. unfold runOf, after, ensure. rewrite ensure_unfold. fold key.
  rewrite Hwarm. destruct (existsFails env); simpl; rewrite <- !app_assoc; done.
Qed.

End EnsureOutcome.

Lemma eventsOf_eq {A} (m : M A) w evs :
  trace (after m w) = trace w ++ evs -> eventsOf m w = evs.
Proof. intros H. unfold eventsOf. rewrite H. apply drop_app_length. Qed.

Section Claims.

Variable env : Env.
Variable leaderboardID : string.
Variable leaderboardEndTime : Time.
Let key := getRedisKey leaderboardID.
Let ensure := ensureLeaderboardExists env leaderboardID leaderboardEndTime.

(** Claim C5.  When the cache key of the leaderboard exists, the warm-up does
    nothing: it leaves the table and the cache (members and deadline) as they
    are and only asks whether the key exists, with no query of the table and no
    batch.  Called twice in a row it still only asks twice, so the table is
    scanned at most once (in fact not at all). *)
Theorem ensure_warm_is_noop w :
  EXISTS (clock env) (cache w) key = 1%Z ->
  let w1 := after ensure w in
  let w2 := after ensure w1 in
  (existsFails env = false -> runOf ensure w = Ok tt) /\
  table w1 = table w /\ cache w1 = cache w /\
  eventsOf ensure w = [CallEnsure leaderboardID; RedisExists key] /\
  drop (length (trace w)) (trace w2)
    = [CallEnsure leaderboardID; RedisExists key;
       CallEnsure leaderboardID; RedisExists key] /\
  scans (drop (length (trace w)) (trace w2)) <= 1.
Proof.
  intros Hwarm w1 w2.
  destruct (ensure_warm env leaderboardID leaderboardEndTime w Hwarm) as (Hr & Ht & Hc & Htr).
  fold ensure key in Hr, Ht, Hc, Htr. fold w1 in Ht, Hc, Htr.
  assert (Hwarm1 : EXISTS (clock env) (cache w1) key = 1%Z) by (by rewrite Hc).
  destruct (ensure_warm env leaderboardID leaderboardEndTime w1 Hwarm1) as (_ & _ & _ & Htr2).
  fold ensure key in Htr2. fold w2 in Htr2.
  assert (Hd : drop (length (trace w)) (trace w2)
               = [CallEnsure leaderboardID; RedisExists key;
                  CallEnsure leaderboardID; RedisExists key]).
  { rewrite Htr2, Htr, <- app_assoc. apply drop_app_length. }
  split; [intros Hex; by rewrite Hr, Hex|].
  split; [done|]. split; [done|]. split; [by apply eventsOf_eq|]. split; [done|].
  rewrite Hd. simpl. lia.
Qed.

(** Claim C6.  The batch of a warm-up ends with one expiry command exactly
    when the leaderboard end time plus 24 hours lies after the current time,
    and then the deadline of the populated key is that instant; otherwise the
    batch holds no expiry command and the populated key has no deadline. *)
Theorem warmup_expiry w :
  EXISTS (clock env) (cache w) key = 0%Z -> existsFails env = false ->
  exists pipe,
    Forall (fun c => forall k d, c <> Expire k d) pipe /\
    last (trace (after ensure w))
      = Some (RedisExec
                (pipe ++ if (clock env <? expiryDeadline leaderboardEndTime)%Z
                         then [Expire key (expiryDeadline leaderboardEndTime - clock env)%Z]
                         else [])) /\
    (warmExecFails env = false ->
     forall e, cache (after ensure w) !! key = Some e ->
       deadline e = if (clock env <? expiryDeadline leaderboardEndTime)%Z
                    then Some (expiryDeadline leaderboardEndTime) else None).
Proof.
  intros Hcold Hex.
  destruct (ensure_cold env leaderboardID leaderboardEndTime w Hcold Hex)
    as (zs & j & err & _ & _ & _ & Hc & Htr).
  fold ensure key in Hc, Htr.
  exists (Del key :: (ZAdd key <$> zs ++ placeholderPart err)).
  split; [|split].
  - constructor; [done|]. apply Forall_fmap, Forall_forall. done.
  - rewrite Htr, !app_assoc. by rewrite last_snoc.
  - intros Hok e He. rewrite Hc, Hok in He.
    change (Del key :: (ZAdd key <$> zs ++ placeholderPart err)
              ++ expiryPart env key leaderboardEndTime)
      with ((Del key :: (ZAdd key <$> zs ++ placeholderPart err))
              ++ expiryPart env key leaderboardEndTime) in He.
    rewrite <- setup_expiryPart, exec_warm_batch in He.
    destruct (zs ++ placeholderPart err); [done|]. by injection He as <-.
Qed.

(** Claim C7.  When the scan of the table fails during a warm-up, the warm-up
    does not return the failure of the scan: it appends one placeholder, the
    zero value of [redis.Z], to what the scan had queued, and returns what the
    submission of the batch returns.  Once the batch is submitted the cache
    key exists. *)
Theorem scan_failure_placeholder w pipe err w' :
  EXISTS (clock env) (cache w) key = 0%Z -> existsFails env = false ->
  syncLeaderboard env leaderboardID [] (afterExists leaderboardID w) = ((pipe, Some err), w') ->
  runOf ensure w
    = (if warmExecFails env
       then Err (Wrapf "failed to execute Redis pipeline" store_error) else Ok tt) /\
  runOf ensure w <> Err err /\
  last (trace (after ensure w))
    = Some (RedisExec (pipe ++ [ZAdd key Z0] ++ expiryPart env key leaderboardEndTime)) /\
  (warmExecFails env = false -> EXISTS (clock env) (cache (after ensure w)) key = 1%Z).
Proof.
  intros Hcold Hex Hsync.
  destruct (ensure_cold env leaderboardID leaderboardEndTime w Hcold Hex)
    as (zs & j & err0 & Hs & Hr & _ & Hc & Htr).
  fold ensure key in Hr, Hc, Htr. rewrite Hsync in Hs. injection Hs as -> <- _.
  unfold syncLeaderboard in Hsync. apply scanPages_error in Hsync as ->.
  split; [done|]. split; [|split].
  - rewrite Hr. by destruct (warmExecFails env).
  - rewrite Htr, !app_assoc, last_snoc. simpl. by rewrite fmap_app, <- !app_assoc.
  - intros Hok. rewrite Hc, Hok.
    change (Del key :: (ZAdd key <$> zs ++ placeholderPart (Some _))
              ++ expiryPart env key leaderboardEndTime)
      with ((Del key :: (ZAdd key <$> zs ++ [Z0]))
              ++ expiryPart env key leaderboardEndTime).
    unfold EXISTS, live. rewrite <- setup_expiryPart, exec_warm_batch.
    destruct (zs ++ [Z0]) eqn:E; [by destruct zs|].
    unfold expired. simpl. destruct (Z.ltb_spec (clock env) (expiryDeadline leaderboardEndTime)); [|done].
    simpl. destruct (Z.leb_spec (expiryDeadline leaderboardEndTime) (clock env)); [lia | done].
Qed.

End Claims.

(** ** Sorted sets and the read operations *)

Section SortedSetFacts.

Implicit Types l : list ZPair.
Implicit Types m : gmap string float.

Lemma insertDesc_elem a l z : z ∈ insertDesc a l <-> z = a \/ z ∈ l.
Proof.
  induction l as [|b l IH]; simpl.
  - rewrite list_elem_of_singleton, elem_of_nil. tauto.
  - destruct (before a b); [apply elem_of_cons|]. rewrite !elem_of_cons, IH. tauto.
Qed.

Lemma sortDesc_elem l z : z ∈ foldr insertDesc [] l <-> z ∈ l.
Proof.
  induction l as [|a l IH]; simpl; [done|].
  rewrite insertDesc_elem, IH, elem_of_cons. tauto.
Qed.

Lemma revList_elem m z : z ∈ revList m <-> m !! Member z = Some (Score z).
Proof.
  unfold revList. rewrite sortDesc_elem, list_elem_of_fmap. split.
  - intros ([k x] & -> & H). simpl. by apply elem_of_map_to_list.
  - intros H. exists (Member z, Score z). split; [by destruct z|].
    by apply elem_of_map_to_list.
Qed.

Lemma indexOf_lookup member l i :
  indexOf member l = Some i -> exists z, l !! i = Some z /\ Member z = member.
Proof.
  revert i. induction l as [|z l IH]; intros i; simpl; [done|].
  destruct (String.eqb_spec (Member z) member) as [E|_].
  - intros [= <-]. by exists z.
  - destruct (indexOf member l) as [j|]; [|done]. intros [= <-]. by apply IH.
Qed.

Lemma indexOf_found member l z :
  z ∈ l -> Member z = member -> is_Some (indexOf member l).
Proof.
  intros Hin <-. induction l as [|a l IH]; [by apply elem_of_nil in Hin|].
  simpl. destruct (String.eqb_spec (Member a) (Member z)); [done|].
  apply elem_of_cons in Hin as [->|Hin]; [done|].
  destruct (IH Hin) as [j ->]. done.
Qed.

(** A member of the sorted set has a place in its descending listing,
    where it stands with its score. *)
Lemma revList_rank m member x :
  m !! member = Some x ->
  exists i, indexOf member (revList m) = Some i /\
            revList m !! i = Some (mkZ x member).
Proof.
  intros H.
  assert (Hin : mkZ x member ∈ revList m) by (by apply revList_elem).
  destruct (indexOf_found member _ _ Hin eq_refl) as [i Hi].
  exists i. split; [done|].
  destruct (indexOf_lookup _ _ _ Hi) as ([x' k] & Hl & Hk). simpl in Hk. subst k.
  rewrite Hl. f_equal.
  apply list_elem_of_lookup_2, revList_elem in Hl. simpl in Hl.
  rewrite H in Hl. by injection Hl as ->.
Qed.

Lemma rangeOf_lookup {A} (l : list A) i z stop :
  l !! i = Some z -> (stop = -1 \/ Z.of_nat i <= stop)%Z ->
  rangeOf l 0 stop !! i = Some z.
Proof.
  intros Hl Hstop. pose proof (lookup_lt_Some _ _ _ Hl) as Hlen.
  unfold rangeOf. cbn zeta. change (0 <? 0)%Z with false. cbv iota.
  destruct Hstop as [-> | Hstop].
  - change (-1 <? 0)%Z with true. cbv iota.
    destruct (Z.ltb_spec (Z.of_nat (length l) + -1) 0); [lia|].
    destruct (Z.leb_spec (Z.of_nat (length l)) 0); [lia|]. simpl.
    rewrite drop_0, lookup_take_lt; [done | lia].
  - destruct (Z.ltb_spec stop 0); [lia|].
    destruct (Z.ltb_spec stop 0); [lia|].
    destruct (Z.leb_spec (Z.of_nat (length l)) 0); [lia|]. simpl.
    rewrite drop_0, lookup_take_lt; [done | lia].
Qed.

Lemma withRanks_lookup l : forall k i z,
  l !! i = Some z ->
  withRanks k l !! i
  = Some {| customTypes.Member := Member z; customTypes.Score := Score z;
            customTypes.Rank := Z.of_nat (k + i) + 1 |}.
Proof.
  induction l as [|a l IH]; intros k i z; [done|].
  destruct i as [|i]; simpl.
  - intros [= ->]. by rewrite Nat.add_0_r.
  - intros H. rewrite (IH (S k) i z H). do 3 f_equal. lia.
Qed.

Lemma addAll_snoc m zs z : addAll m (zs ++ [z]) = <[Member z := Score z]> (addAll m zs).
Proof. unfold addAll. by rewrite foldl_snoc. Qed.

End SortedSetFacts.

Section Reads.

Variable env : Env.
Variable leaderboardID : string.
Variable leaderboardEndTime : Time.
Let key := getRedisKey leaderboardID.
Let ensure := ensureLeaderboardExists env leaderboardID leaderboardEndTime.

Lemma GetTopN_run n w :
  runOf (GetTopNParticipants env leaderboardID n leaderboardEndTime) w
  = match runOf ensure w with
    | Err e => Err e
    | Ok _ =>
        if zrevrangeFails env then
          Err (Wrapf "failed to get top N participants from Redis" store_error)
        else Ok (withRanks 0 (ZREVRANGE (clock env) (cache (after ensure w)) key
                                0 (int64 (n - 1))))
    end.
Proof.
  unfold runOf, after, GetTopNParticipants, mbind, M_bind, bind, wrap,
    ZRevRangeWithScores, call. fold ensure key.
  destruct (ensure w) as [[[]|e] w1]; [|done]. simpl.
  by destruct (zrevrangeFails env).
Qed.

Lemma GetPSR_run member w :
  runOf (GetParticipantScoreAndRank env leaderboardID member leaderboardEndTime) w
  = match runOf ensure w with
    | Err e => Err e
    | Ok _ =>
        if zscoreFails env then Err (Wrapf "failed to get participant score" store_error)
        else match ZSCORE (clock env) (cache (after ensure w)) key member with
             | None => Err (Errorf "participant not found in leaderboard")
             | Some score =>
                 if zrevrankFails env then
                   Err (Wrapf "failed to get participant rank" store_error)
                 else match ZREVRANK (clock env) (cache (after ensure w)) key member with
                      | None => Err (Wrapf "failed to get participant rank" redis_Nil)
                      | Some i =>
                          Ok {| customTypes.Member := member;
                                customTypes.Score := score;
                                customTypes.Rank := Z.of_nat i + 1 |}
                      end
             end
    end.
Proof.
  unfold runOf, after, GetParticipantScoreAndRank, mbind, M_bind, bind, wrap,
    ZScore, ZRevRank. fold ensure key.
  destruct (ensure w) as [[[]|e] w1]; [|done]. simpl.
  destruct (zscoreFails env); [done|].
  destruct (ZSCORE _ _ _ _); [|done]. simpl.
  destruct (zrevrankFails env); [done|].
  by destruct (ZREVRANK _ _ _ _).
Qed.

(** Claim C8.  After a successful warm-up, [GetParticipantScoreAndRank]
    answers a member that is not in the sorted set with the error "participant
    not found in leaderboard", which is no wrapped store error and no score;
    it answers a member of the sorted set with its cached score and with its
    zero-based place in the descending listing plus one. *)
Theorem score_and_rank member w :
  runOf ensure w = Ok tt -> zscoreFails env = false -> zrevrankFails env = false ->
  let zs := members (live (clock env) (cache (after ensure w)) key) in
  let result :=
    runOf (GetParticipantScoreAndRank env leaderboardID member leaderboardEndTime) w in
  match zs !! member with
  | None =>
      result = Err (Errorf "participant not found in leaderboard") /\
      forall msg cause, result <> Err (Wrapf msg cause)
  | Some score =>
      exists i,
        revList zs !! i = Some (mkZ score member) /\
        ZREVRANK (clock env) (cache (after ensure w)) key member = Some i /\
        result = Ok {| customTypes.Member := member;
                       customTypes.Score := score;
                       customTypes.Rank := Z.of_nat i + 1 |}
  end.
Proof.
  intros Hens Hs Hr zs result. unfold result. rewrite GetPSR_run, Hens, Hs, Hr.
  unfold ZSCORE, ZREVRANK. fold zs.
  destruct (zs !! member) as [score|] eqn:Hm.
  - destruct (revList_rank zs member score Hm) as (i & Hi & Hl).
    exists i. by rewrite Hi.
  - split; [done|]. by intros msg cause.
Qed.

(** What [GetTopNParticipants] lists at place [i]. *)
Lemma GetTopN_lists n w i z :
  runOf ensure w = Ok tt -> zrevrangeFails env = false ->
  revList (members (live (clock env) (cache (after ensure w)) key)) !! i = Some z ->
  (n = 0 \/ Z.of_nat i < n < 2 ^ 63)%Z ->
  exists result,
    runOf (GetTopNParticipants env leaderboardID n leaderboardEndTime) w = Ok result /\
    result !! i = Some {| customTypes.Member := Member z;
                          customTypes.Score := Score z;
                          customTypes.Rank := Z.of_nat i + 1 |}.
Proof.
  intros Hr Hrange Hl Hn. rewrite GetTopN_run, Hr, Hrange. eexists. split; [done|].
  unfold ZREVRANGE. apply (withRanks_lookup _ 0 i z).
  apply rangeOf_lookup; [done|]. unfold int64.
  destruct Hn as [-> | Hn]; [by left | right].
  rewrite Z.mod_small; lia.
Qed.

(** The sorted set after a warm-up whose scan failed: what the scan had
    queued, and the placeholder. *)
Lemma failed_warmup_members w pipe err w' :
  EXISTS (clock env) (cache w) key = 0%Z -> existsFails env = false ->
  syncLeaderboard env leaderboardID [] (afterExists leaderboardID w) = ((pipe, Some err), w') ->
  warmExecFails env = false ->
  runOf ensure w = Ok tt /\
  exists zs,
    members (live (clock env) (cache (after ensure w)) key)
    = <["" := 0%float]> (addAll ∅ zs).
Proof.
  intros Hcold Hex Hsync Hok.
  destruct (ensure_cold env leaderboardID leaderboardEndTime w Hcold Hex)
    as (zs & j & err0 & Hs & Hr & _ & Hc & _).
  fold ensure key in Hr, Hc. rewrite Hsync in Hs. injection Hs as -> <- _.
  rewrite Hok in Hr, Hc. split; [done|]. exists zs.
  rewrite Hc.
  change (Del key :: (ZAdd key <$> zs ++ placeholderPart (Some err))
            ++ expiryPart env key leaderboardEndTime)
    with ((Del key :: (ZAdd key <$> zs ++ [Z0]))
            ++ expiryPart env key leaderboardEndTime).
  unfold live. rewrite <- setup_expiryPart, exec_warm_batch.
  destruct (zs ++ [Z0]) eqn:E; [by destruct zs|]. rewrite <- E, addAll_snoc.
  unfold expired. simpl.
  destruct (Z.ltb_spec (clock env) (expiryDeadline leaderboardEndTime)); [|done].
  simpl. destruct (Z.leb_spec (expiryDeadline leaderboardEndTime) (clock env)); [lia|done].
Qed.

End Reads.

Lemma live_members now now' (db : gmap string Entry) key :
  EXISTS now db key = 1%Z -> members (live now' db key) <> ∅ ->
  members (live now db key) = members (live now' db key).
Proof.
  unfold EXISTS, live. destruct (db !! key) as [e|]; [|done].
  destruct (expired now e); [done|]. by destruct (expired now' e).
Qed.

(** Claim C10.  After a warm-up whose scan failed, the placeholder is a member
    of the sorted set like any other, the empty string with score 0.
    [GetTopNParticipants] lists it with a rank whenever its place is among the
    first n (or n is 0, which asks for the whole set): in the read that ran
    the warm-up, and in a read that follows while the key exists. *)
Theorem placeholder_is_ranked env leaderboardID leaderboardEndTime w pipe err w' :
  let key := getRedisKey leaderboardID in
  let w1 := after (ensureLeaderboardExists env leaderboardID leaderboardEndTime) w in
  EXISTS (clock env) (cache w) key = 0%Z -> existsFails env = false ->
  syncLeaderboard env leaderboardID [] (afterExists leaderboardID w) = ((pipe, Some err), w') ->
  warmExecFails env = false ->
  exists i,
    ZSCORE (clock env) (cache w1) key "" = Some 0%float /\
    ZREVRANK (clock env) (cache w1) key "" = Some i /\
    (forall n,
        zrevrangeFails env = false -> (n = 0 \/ Z.of_nat i < n < 2 ^ 63)%Z ->
        exists result,
          runOf (GetTopNParticipants env leaderboardID n leaderboardEndTime) w = Ok result /\
          result !! i = Some {| customTypes.Member := "";
                                customTypes.Score := 0;
                                customTypes.Rank := Z.of_nat i + 1 |}) /\
    (forall env' n,
        EXISTS (clock env') (cache w1) key = 1%Z ->
        existsFails env' = false -> zrevrangeFails env' = false ->
        (n = 0 \/ Z.of_nat i < n < 2 ^ 63)%Z ->
        exists result,
          runOf (GetTopNParticipants env' leaderboardID n leaderboardEndTime) w1 = Ok result /\
          result !! i = Some {| customTypes.Member := "";
                                customTypes.Score := 0;
                                customTypes.Rank := Z.of_nat i + 1 |}).
Proof.
  intros key w1 Hcold Hex Hsync Hok.
  destruct (failed_warmup_members env leaderboardID leaderboardEndTime w pipe err w'
              Hcold Hex Hsync Hok) as (Hr & zs & Hlive).
  fold key w1 in Hlive.
  destruct (revList_rank (<["" := 0%float]> (addAll ∅ zs)) "" 0%float) as (i & Hi & Hl).
  { apply lookup_insert_eq. }
  exists i. unfold ZSCORE, ZREVRANK. rewrite Hlive.
  split; [apply lookup_insert_eq|]. split; [done|]. split.
  - intros n Hrange Hn.
    apply (GetTopN_lists env leaderboardID leaderboardEndTime n w i (mkZ 0 "")); try done.
    fold key w1. by rewrite Hlive.
  - intros env' n Hwarm Hex' Hrange Hn.
    destruct (ensure_warm env' leaderboardID leaderboardEndTime w1 Hwarm)
      as (Hr' & _ & Hc' & _). rewrite Hex' in Hr'.
    apply (GetTopN_lists env' leaderboardID leaderboardEndTime n w1 i (mkZ 0 "")); try done.
    rewrite Hc'. fold key. rewrite (live_members _ (clock env)); [by rewrite Hlive|done|].
    rewrite Hlive. apply insert_non_empty.
Qed.

(** ** The score ledger *)

Section Ledger.

Variable env : Env.
Variable leaderboardID : string.
Variable leaderboardEndTime : Time.
Let key := getRedisKey leaderboardID.
Let ensure := ensureLeaderboardExists env leaderboardID leaderboardEndTime.

Lemma ensure_extends w :
  trace (after ensure w) = trace w ++ eventsOf ensure w.
Proof.
  destruct (ensure_events env leaderboardID leaderboardEndTime w) as [rest H].
  fold ensure in H. by rewrite (eventsOf_eq _ _ _ H).
Qed.

Lemma ensure_starts w :
  exists rest, eventsOf ensure w = CallEnsure leaderboardID :: RedisExists key :: rest.
Proof.
  destruct (ensure_events env leaderboardID leaderboardEndTime w) as [rest H].
  exists rest. by apply eventsOf_eq.
Qed.

Lemma UpdateScore_unfold member delta w :
  UpdateScore env leaderboardID member delta leaderboardEndTime w
  = let w1 := record (DynamoUpdateItem (leaderboardID, member)) w in
    if updateItemFails env then
      (Err (Wrapf "failed to update score in DynamoDB" store_error), w1)
    else
      let w2 := setTable (dynamodb.update (leaderboardID, member) (fmtF env delta)
                            (clock env) (table w1)) w1 in
      match ensure w2 with
      | (Err e, w3) => (Err e, w3)
      | (Ok _, w3) =>
          let w4 := record (RedisExec [ZIncrBy key delta member]) w3 in
          if execFails env then
            (Err (Wrapf "failed to update Redis sorted set" store_error), w4)
          else (Ok tt, setCache (exec (clock env) [ZIncrBy key delta member] (cache w4)) w4)
      end.
Proof.
  unfold UpdateScore, mbind, M_bind, bind, wrap, UpdateItem, Exec, call. fold ensure key.
  destruct (updateItemFails env); [done|]. cbv zeta.
  destruct (ensure _) as [[[]|e] w3]; [|done].
  by destruct (execFails env).
Qed.

Lemma LeaveLeaderboard_unfold member w :
  LeaveLeaderboard env leaderboardID member w
  = let w1 := record (RedisExec [ZRem key member]) w in
    if execFails env then
      (Err (Wrapf "failed to remove participant from Redis sorted set" store_error), w1)
    else
      let w2 := setCache (exec (clock env) [ZRem key member] (cache w1)) w1 in
      let w3 := record (DynamoDeleteItem (leaderboardID, member)) w2 in
      if deleteItemFails env then
        (Err (Wrapf "failed to delete participant from DynamoDB" store_error), w3)
      else (Ok tt, setTable (delete (leaderboardID, member) (table w3)) w3).
Proof.
  unfold LeaveLeaderboard, mbind, M_bind, bind, wrap, DeleteItem, Exec, call. fold key.
  destruct (execFails env); [done|]. cbv zeta.
  by destruct (deleteItemFails env).
Qed.

Lemma GetTopN_events n w :
  exists rest,
    eventsOf (GetTopNParticipants env leaderboardID n leaderboardEndTime) w
    = CallEnsure leaderboardID :: RedisExists key :: rest.
Proof.
  destruct (ensure_starts w) as [rest Hrest].
  pose proof (ensure_extends w) as Hext. rewrite Hrest in Hext.
  unfold eventsOf, after, GetTopNParticipants, mbind, M_bind, bind, wrap,
    ZRevRangeWithScores, call. fold ensure key. unfold after in Hext.
  destruct (ensure w) as [[[]|e] w1]; simpl in *.
  - destruct (zrevrangeFails env); simpl; rewrite Hext;
      eexists; rewrite <- app_assoc, drop_app_length; simpl; done.
  - exists rest. by rewrite Hext, drop_app_length.
Qed.

Lemma GetPSR_events member w :
  exists rest,
    eventsOf (GetParticipantScoreAndRank env leaderboardID member leaderboardEndTime) w
    = CallEnsure leaderboardID :: RedisExists key :: rest.
Proof.
  destruct (ensure_starts w) as [rest Hrest].
  pose proof (ensure_extends w) as Hext. rewrite Hrest in Hext.
  unfold eventsOf, after, GetParticipantScoreAndRank, mbind, M_bind, bind, wrap,
    ZScore, ZRevRank. fold ensure key. unfold after in Hext.
  destruct (ensure w) as [[[]|e] w1]; simpl in *.
  - destruct (zscoreFails env); simpl.
    { rewrite Hext. eexists. rewrite <- app_assoc, drop_app_length. simpl. done. }
    destruct (ZSCORE _ _ _ _); simpl.
    2:{ rewrite Hext. eexists. rewrite <- app_assoc, drop_app_length. simpl. done. }
    destruct (zrevrankFails env); simpl.
    { rewrite Hext. eexists. rewrite <- !app_assoc, drop_app_length. simpl. done. }
    destruct (ZREVRANK _ _ _ _); simpl;
      rewrite Hext; eexists; rewrite <- !app_assoc, drop_app_length; simpl; done.
  - exists rest. by rewrite Hext, drop_app_length.
Qed.

Lemma UpdateScore_events member delta w :
  let w1 := after (UpdateItem env (leaderboardID, member) (fmtF env delta) (clock env)) w in
  eventsOf (UpdateScore env leaderboardID member delta leaderboardEndTime) w
  = DynamoUpdateItem (leaderboardID, member)
      :: if updateItemFails env then []
         else eventsOf ensure w1
                ++ match runOf ensure w1 with
                   | Ok _ => [RedisExec [ZIncrBy key delta member]]
                   | Err _ => []
                   end.
Proof.
  intros w1. apply eventsOf_eq. unfold after at 1.
  rewrite UpdateScore_unfold. cbv zeta.
  destruct (updateItemFails env) eqn:Hu; [done|].
  set (w2 := setTable _ _).
  assert (Hw1 : w1 = w2).
  { unfold w1, w2, after, UpdateItem, call. by rewrite Hu. }
  rewrite <- Hw1. pose proof (ensure_extends w1) as Hext.
  unfold after, runOf in *. destruct (ensure w1) as [[[]|e] w3]; simpl in *.
  - destruct (execFails env); simpl; rewrite Hext, Hw1; simpl;
      rewrite <- !app_assoc; done.
  - rewrite Hext, Hw1. simpl. rewrite app_nil_r, <- !app_assoc. done.
Qed.

Lemma LeaveLeaderboard_events member w :
  eventsOf (LeaveLeaderboard env leaderboardID member) w
  = RedisExec [ZRem key member]
      :: if execFails env then [] else [DynamoDeleteItem (leaderboardID, member)].
Proof.
  apply eventsOf_eq. unfold after.
  rewrite LeaveLeaderboard_unfold. cbv zeta.
  destruct (execFails env); [done|].
  destruct (deleteItemFails env); simpl; by rewrite <- app_assoc.
Qed.

End Ledger.

Section Join.

Variable env : Env.
Variable p : models.ParticipantModel.
Variable leaderboardEndTime : Time.
Let key := getRedisKey (models.LeaderboardID p).
Let ensure := ensureLeaderboardExists env (models.LeaderboardID p) leaderboardEndTime.
Let item := itemOf (setUpdatedAt (clock env) p).
Let pipe := [ZAdd key {| Score := models.Score p; Member := models.NamespacedUserID p |}].

Lemma JoinLeaderboard_unfold w :
  JoinLeaderboard env p leaderboardEndTime w
  = let w1 := record (DynamoGetItem (dynamodb.keyOf item)) w in
    if getItemFails env then
      (Err (Wrapf "failed to check if participant exists" store_error), w1)
    else
      let w2 := record (DynamoPutItem (dynamodb.keyOf item)) w1 in
      if putItemFails env then
        (Err (Wrapf "failed to put item in DynamoDB" store_error), w2)
      else
        let w3 := setTable (<[dynamodb.keyOf item := item]> (table w2)) w2 in
        match ensure w3 with
        | (Err e, w4) => (Err e, w4)
        | (Ok _, w4) =>
            let w5 := record (RedisExec pipe) w4 in
            if execFails env then
              (Err (Wrapf "failed to update Redis sorted set" store_error), w5)
            else (Ok tt, setCache (exec (clock env) pipe (cache w5)) w5)
        end.
Proof.
  unfold JoinLeaderboard, mbind, M_bind, bind, wrap, GetItem, PutItem, Exec, call.
  fold ensure key.
  destruct (getItemFails env); [done|]. cbv zeta.
  destruct (putItemFails env); [done|].
  change (ensureLeaderboardExists env
            (models.LeaderboardID (setUpdatedAt (clock env) p)) leaderboardEndTime)
    with ensure.
  destruct (ensure _) as [[[]|e] w4]; [|done].
  by destruct (execFails env).
Qed.

Lemma JoinLeaderboard_events w :
  let w1 := after (PutItem env item) (after (GetItem env (dynamodb.keyOf item)) w) in
  eventsOf (JoinLeaderboard env p leaderboardEndTime) w
  = DynamoGetItem (dynamodb.keyOf item)
      :: if getItemFails env then []
         else DynamoPutItem (dynamodb.keyOf item)
                :: if putItemFails env then []
                   else eventsOf ensure w1
                          ++ match runOf ensure w1 with
                             | Ok _ => [RedisExec pipe]
                             | Err _ => []
                             end.
Proof.
  intros w1. apply eventsOf_eq. unfold after at 1.
  rewrite JoinLeaderboard_unfold. cbv zeta.
  destruct (getItemFails env) eqn:Hg; [done|].
  destruct (putItemFails env) eqn:Hp; [simpl; by rewrite <- app_assoc|].
  set (w3 := setTable _ _).
  assert (Hw1 : w1 = w3).
  { unfold w1, w3, after, GetItem, PutItem, call. by rewrite Hg, Hp. }
  rewrite <- Hw1.
  pose proof (ensure_extends env (models.LeaderboardID p) leaderboardEndTime w1) as Hext.
  fold ensure in Hext.
  unfold after, runOf in *. destruct (ensure w1) as [[[]|e] w4]; simpl in *.
  - destruct (execFails env); simpl; rewrite Hext, Hw1; simpl;
      rewrite <- !app_assoc; done.
  - rewrite Hext, Hw1. simpl. rewrite app_nil_r, <- !app_assoc. done.
Qed.

(** The item under the participant's key after a join whose two calls to
    the table succeed, whatever was stored there before. *)
Lemma JoinLeaderboard_table w :
  getItemFails env = false -> putItemFails env = false ->
  table (after (JoinLeaderboard env p leaderboardEndTime) w) !! dynamodb.keyOf item
  = Some item.
Proof.
  intros Hg Hp. unfold after. rewrite JoinLeaderboard_unfold. cbv zeta.
  rewrite Hg, Hp. set (w3 := setTable _ _).
  pose proof (ensure_table env (models.LeaderboardID p) leaderboardEndTime w3) as Ht.
  fold ensure in Ht. unfold after in Ht.
  destruct (ensure w3) as [[[]|e] w4]; simpl in *.
  - destruct (execFails env); simpl; rewrite Ht; apply lookup_insert_eq.
  - rewrite Ht. apply lookup_insert_eq.
Qed.

End Join.

(** ** The helper *)

Lemma append_inj_r c c' x : c +:+ x = c' +:+ x -> c = c'.
Proof.
  revert c'. induction c as [|a c IH]; intros [|a' c'] H.
  - done.
  - apply (f_equal String.length) in H. rewrite append_nil, append_cons in H.
    simpl in H. rewrite str_length_app in H. lia.
  - apply (f_equal String.length) in H. rewrite append_nil, append_cons in H.
    simpl in H. rewrite str_length_app in H. lia.
  - rewrite !append_cons in H. injection H as -> H. f_equal. by apply IH.
Qed.

Lemma update_lookup (key : string * string) (incVal : float) (now : Time) (t : gmap (string * string) dynamodb.Item) :
  exists it,
    dynamodb.update key incVal now t !! key = Some it /\
    dynamodb.score it = (default 0 (dynamodb.score <$> t !! key) + incVal)%float.
Proof.
  unfold dynamodb.update. destruct (t !! key) as [it|] eqn:E; simpl;
    eexists; rewrite lookup_insert_eq; split; done.
Qed.

Lemma update_lookup_ne (key key' : string * string) (incVal : float) (now : Time) (t : gmap (string * string) dynamodb.Item) :
  key <> key' -> dynamodb.update key incVal now t !! key' = t !! key'.
Proof.
  intros Hne. unfold dynamodb.update.
  destruct (t !! key); by rewrite lookup_insert_ne.
Qed.

Lemma UpdateScore_table env leaderboardID member delta endT w :
  table (after (repos.UpdateScore env leaderboardID member delta endT) w)
  = if updateItemFails env then table w
    else dynamodb.update (leaderboardID, member) (fmtF env delta) (clock env) (table w).
Proof.
  unfold after. rewrite UpdateScore_unfold. cbv zeta.
  destruct (updateItemFails env); [done|].
  set (w2 := setTable _ _).
  pose proof (ensure_table env leaderboardID endT w2) as Ht. unfold after in Ht.
  destruct (repos.ensureLeaderboardExists env leaderboardID endT w2) as [[[]|e] w3];
    simpl in *; [|done].
  by destruct (execFails env).
Qed.

Section Helper.

Variable l : leaderboard.IndividualLeaderboardHelper.
Variable env : Env.

(** Claim C9.  The helper's [UpdateScore] keeps only the user component of
    the ID it is given: for an accepted ID c___u with c different from the
    helper's clientID, the update is the repository's update of
    clientID___u, the item under the supplied ID is left as it was, and the
    delta goes to the item under the recomposed ID. *)
Theorem helper_recomposes_id namespacedUserID c u delta w :
  leaderboard.validateNamespacedUserID namespacedUserID = Ok (c, u) ->
  c <> leaderboard.clientID l ->
  let lid := leaderboard.leaderboardID l in
  let recomposed := leaderboard.clientID l +:+ "___" +:+ u in
  let w' := after (leaderboard.UpdateScore l env namespacedUserID delta) w in
  namespacedUserID = c +:+ "___" +:+ u /\
  namespacedUserID <> recomposed /\
  leaderboard.UpdateScore l env namespacedUserID delta w
    = repos.UpdateScore env lid recomposed delta (leaderboard.leaderboardEndTime l) w /\
  table w' !! (lid, namespacedUserID) = table w !! (lid, namespacedUserID) /\
  (updateItemFails env = false ->
   exists it,
     table w' !! (lid, recomposed) = Some it /\
     dynamodb.score it
     = (default 0 (dynamodb.score <$> table w !! (lid, recomposed)) + fmtF env delta)%float).
Proof.
  intros Hv Hc lid recomposed w'.
  pose proof (validate_Ok _ _ _ Hv) as (Hsplit & _ & _).
  apply Split_two in Hsplit as (Hns & _).
  assert (Hne : namespacedUserID <> recomposed).
  { rewrite Hns. unfold recomposed. intros H. by apply append_inj_r in H. }
  assert (Heq : leaderboard.UpdateScore l env namespacedUserID delta w
                = repos.UpdateScore env lid recomposed delta
                    (leaderboard.leaderboardEndTime l) w).
  { unfold leaderboard.UpdateScore, mbind, M_bind, bind, leaderboard.lift.
    by rewrite Hv. }
  assert (Ht : table w' = if updateItemFails env then table w
                          else dynamodb.update (lid, recomposed) (fmtF env delta)
                                 (clock env) (table w)).
  { unfold w', after. rewrite Heq. apply UpdateScore_table. }
  split; [done|]. split; [done|]. split; [done|]. split.
  - rewrite Ht. destruct (updateItemFails env); [done|].
    apply update_lookup_ne. congruence.
  - intros Hu. rewrite Ht, Hu. apply update_lookup.
Qed.

End Helper.

(** ** Where the ledger places the warm-up *)

(** Claim C2, as amended.  The two read operations call the warm-up before any
    call to a store.  [UpdateScore] and [JoinLeaderboard] first write to the
    table ([UpdateItem]; [GetItem] and [PutItem]) and call the warm-up once
    those calls have succeeded, before they submit their own cache batch.
    [LeaveLeaderboard] submits its removal and deletes the item without
    calling the warm-up. *)
Theorem ensure_placement (env : Env) (leaderboardEndTime : Time) :
  (forall leaderboardID n w, exists rest,
      eventsOf (GetTopNParticipants env leaderboardID n leaderboardEndTime) w
      = CallEnsure leaderboardID :: RedisExists (getRedisKey leaderboardID) :: rest) /\
  (forall leaderboardID member w, exists rest,
      eventsOf (GetParticipantScoreAndRank env leaderboardID member leaderboardEndTime) w
      = CallEnsure leaderboardID :: RedisExists (getRedisKey leaderboardID) :: rest) /\
  (forall leaderboardID member delta w,
      let ensure := ensureLeaderboardExists env leaderboardID leaderboardEndTime in
      let w1 := after (UpdateItem env (leaderboardID, member) (fmtF env delta) (clock env)) w in
      eventsOf (UpdateScore env leaderboardID member delta leaderboardEndTime) w
      = DynamoUpdateItem (leaderboardID, member)
          :: if updateItemFails env then []
             else eventsOf ensure w1
                    ++ match runOf ensure w1 with
                       | Ok _ => [RedisExec [ZIncrBy (getRedisKey leaderboardID) delta member]]
                       | Err _ => []
                       end) /\
  (forall p w,
      let ensure := ensureLeaderboardExists env (models.LeaderboardID p) leaderboardEndTime in
      let item := itemOf (setUpdatedAt (clock env) p) in
      let w1 := after (PutItem env item) (after (GetItem env (dynamodb.keyOf item)) w) in
      eventsOf (JoinLeaderboard env p leaderboardEndTime) w
      = DynamoGetItem (dynamodb.keyOf item)
          :: if getItemFails env then []
             else DynamoPutItem (dynamodb.keyOf item)
                    :: if putItemFails env then []
                       else eventsOf ensure w1
                              ++ match runOf ensure w1 with
                                 | Ok _ =>
                                     [RedisExec
                                        [ZAdd (getRedisKey (models.LeaderboardID p))
                                           {| Score := models.Score p;
                                              Member := models.NamespacedUserID p |}]]
                                 | Err _ => []
                                 end) /\
  (forall leaderboardID member w,
      eventsOf (LeaveLeaderboard env leaderboardID member) w
      = RedisExec [ZRem (getRedisKey leaderboardID) member]
          :: if execFails env then [] else [DynamoDeleteItem (leaderboardID, member)]) /\
  (forall leaderboardID w, exists rest,
      eventsOf (ensureLeaderboardExists env leaderboardID leaderboardEndTime) w
      = CallEnsure leaderboardID :: RedisExists (getRedisKey leaderboardID) :: rest).
Proof.
  split; [intros; apply GetTopN_events|].
  split; [intros; apply GetPSR_events|].
  split; [intros; apply UpdateScore_events|].
  split; [intros; apply JoinLeaderboard_events|].
  split; [intros; apply LeaveLeaderboard_events|].
  intros; apply ensure_starts.
Qed.

(** ** The properties at sample inputs *)

Example split_plain : models.SplitNamespacedUserID "kgen___alice" = ("kgen", "alice").
Proof. reflexivity. Qed.

Example split_without_separator : models.SplitNamespacedUserID "alice" = ("", "").
Proof. reflexivity. Qed.

Example split_two_separators : models.SplitNamespacedUserID "a___b___c" = ("", "").
Proof. reflexivity. Qed.

Example split_four_underscores : models.SplitNamespacedUserID "a____b" = ("a", "_b").
Proof. reflexivity. Qed.

Example split_six_underscores : models.SplitNamespacedUserID "a______b" = ("", "").
Proof. reflexivity. Qed.

(** Four underscores are one separator followed by an underscore of the user
    component: the ID is in the expected format and is accepted. *)
Example four_underscores_accepted :
  wellFormed "a____b" /\
  leaderboard.validateNamespacedUserID "a____b" = Ok ("a", "_b").
Proof.
  split; [|reflexivity]. split; [reflexivity|].
  exists "a", "_b". repeat split; (reflexivity || discriminate).
Qed.

(** An empty component is refused although [SplitNamespacedUserID] returns
    the other one. *)
Example empty_client_refused :
  models.SplitNamespacedUserID "___bob" = ("", "bob") /\
  leaderboard.validateNamespacedUserID "___bob"
  = Err (Errorf "invalid namespaced user ID format").
Proof. split; reflexivity. Qed.

(** Claim C1 at a participant whose item exists: [JoinLeaderboard] reads the
    item, drops what it read, and puts the new item in its place.  The score
    50 of the stored item is replaced by the score 0 of the joining
    participant, and the call reports success. *)
Lemma join_overwrites_existing :
  let p := models.NewParticipantModel 0%Z "lb" "kgen" "alice" 0%float in
  let m := JoinLeaderboard (calm 1000%Z) p 5000%Z in
  table seeded !! ("lb", "kgen___alice") = Some aliceItem /\
  dynamodb.score aliceItem = 50%float /\
  runOf m seeded = Ok tt /\
  table (after m seeded) !! ("lb", "kgen___alice")
    = Some (itemOf (setUpdatedAt 1000%Z p)) /\
  dynamodb.score (itemOf (setUpdatedAt 1000%Z p)) = 0%float /\
  eventsOf m seeded
    = [DynamoGetItem ("lb", "kgen___alice"); DynamoPutItem ("lb", "kgen___alice");
       CallEnsure "lb"; RedisExists "leaderboard:lb";
       RedisExec [ZAdd "leaderboard:lb" {| Score := 0; Member := "kgen___alice" |}]].
Proof. vm_compute. repeat split; reflexivity. Qed.

(** Claim C2 fails as stated: [UpdateScore] and [JoinLeaderboard] call the
    table before the warm-up, and [LeaveLeaderboard] never calls it. *)
Lemma ensure_not_first :
  ensureFirst (eventsOf (UpdateScore (calm 1000%Z) "lb" "kgen___alice" 1%float 5000%Z)
                 seeded) = false /\
  eventsOf (UpdateScore (calm 1000%Z) "lb" "kgen___alice" 1%float 5000%Z) seeded
    = [DynamoUpdateItem ("lb", "kgen___alice");
       CallEnsure "lb"; RedisExists "leaderboard:lb";
       RedisExec [ZIncrBy "leaderboard:lb" 1 "kgen___alice"]] /\
  ensureFirst (eventsOf (JoinLeaderboard (calm 1000%Z)
                           (models.NewParticipantModel 0%Z "lb" "kgen" "bob" 0%float) 5000%Z)
                 seeded) = false /\
  eventsOf (LeaveLeaderboard (calm 1000%Z) "lb" "kgen___alice") seeded
    = [RedisExec [ZRem "leaderboard:lb" "kgen___alice"];
       DynamoDeleteItem ("lb", "kgen___alice")].
Proof. vm_compute. repeat split; reflexivity. Qed.

(** Claim C3 fails as stated: neither "a_" nor "b" contains the separator, yet
    "a_" + "___" + "b" is "a____b", which splits at its leftmost separator
    into "a" and "_b". *)
Lemma roundtrip_counterexample :
  strings.Contains "a_" "___" = false /\
  strings.Contains "b" "___" = false /\
  models.CreateNamespacedUserID "a_" "b" = "a____b" /\
  models.SplitNamespacedUserID (models.CreateNamespacedUserID "a_" "b") = ("a", "_b") /\
  models.SplitNamespacedUserID (models.CreateNamespacedUserID "a_" "b") <> ("a_", "b").
Proof. vm_compute. repeat split; try reflexivity. discriminate. Qed.

(** Claim C3, as amended, at clientID "kgen" and userID "alice". *)
Lemma roundtrip_witness :
  strings.Contains "kgen" "___" = false /\
  strings.Contains "alice" "___" = false /\
  strings.HasSuffix "kgen" "_" = false /\
  models.SplitNamespacedUserID (models.CreateNamespacedUserID "kgen" "alice")
  = ("kgen", "alice").
Proof.
  split; [reflexivity|]. split; [reflexivity|]. split; [reflexivity|].
  apply (roundtrip "kgen" "alice"); reflexivity.
Defined.

(** Claim C4 at an ID with two separators. *)
Lemma invalid_format_witness :
  ~ wellFormed "a___b___c" /\
  leaderboard.validateNamespacedUserID "a___b___c"
  = Err (Errorf "invalid namespaced user ID format").
Proof.
  assert (H : ~ wellFormed "a___b___c").
  { intros [H _]. vm_compute in H. discriminate H. }
  split; [exact H | exact (invalid_format_fails "a___b___c" H)].
Defined.

(** Claim C5 at a warm cache. *)
Lemma ensure_warm_witness :
  EXISTS (clock (calm 1000%Z)) (cache seeded) (getRedisKey "lb") = 1%Z /\
  cache (after (ensureLeaderboardExists (calm 1000%Z) "lb" 5000%Z) seeded) = cache seeded.
Proof.
  split; [reflexivity|].
  exact (proj1 (proj2 (proj2 (ensure_warm_is_noop (calm 1000%Z) "lb" 5000%Z seeded eq_refl)))).
Defined.

(** Claim C6 at a cold cache, the end time 5000 ns and the clock at 1000 ns:
    the deadline is 24 h after the end time. *)
Lemma warmup_expiry_witness :
  EXISTS (clock (calm 1000%Z)) (cache seededCold) (getRedisKey "lb") = 0%Z /\
  existsFails (calm 1000%Z) = false /\
  forall e,
    cache (after (ensureLeaderboardExists (calm 1000%Z) "lb" 5000%Z) seededCold)
      !! getRedisKey "lb" = Some e ->
    deadline e = Some 86400000005000%Z.
Proof.
  split; [reflexivity|]. split; [reflexivity|].
  destruct (warmup_expiry (calm 1000%Z) "lb" 5000%Z seededCold eq_refl eq_refl)
    as (pipe & _ & _ & H).
  exact (H eq_refl).
Defined.

(** Claim C7 at a cold cache with the table out of reach. *)
Lemma scan_failure_witness :
  EXISTS (clock (tableDown 1000%Z)) (cache seededCold) (getRedisKey "lb") = 0%Z /\
  syncLeaderboard (tableDown 1000%Z) "lb" [] (afterExists "lb" seededCold)
    = (([Del "leaderboard:lb"], Some (Wrapf "failed to query DynamoDB table" store_error)),
       record (DynamoQuery "lb" 0) (afterExists "lb" seededCold)) /\
  runOf (ensureLeaderboardExists (tableDown 1000%Z) "lb" 5000%Z) seededCold = Ok tt /\
  EXISTS (clock (tableDown 1000%Z))
    (cache (after (ensureLeaderboardExists (tableDown 1000%Z) "lb" 5000%Z) seededCold))
    (getRedisKey "lb") = 1%Z.
Proof.
  split; [reflexivity|]. split; [reflexivity|].
  destruct (scan_failure_placeholder (tableDown 1000%Z) "lb" 5000%Z seededCold
              [Del "leaderboard:lb"] (Wrapf "failed to query DynamoDB table" store_error)
              (record (DynamoQuery "lb" 0) (afterExists "lb" seededCold))
              eq_refl eq_refl eq_refl) as (Hrun & _ & _ & Hexists).
  split; [exact Hrun | exact (Hexists eq_refl)].
Defined.

(** Claim C8 at the one member of a warm cache. *)
Lemma score_and_rank_witness :
  runOf (ensureLeaderboardExists (calm 1000%Z) "lb" 5000%Z) seeded = Ok tt /\
  exists i,
    runOf (GetParticipantScoreAndRank (calm 1000%Z) "lb" "kgen___alice" 5000%Z) seeded
    = Ok {| customTypes.Member := "kgen___alice";
            customTypes.Score := 50;
            customTypes.Rank := Z.of_nat i + 1 |}.
Proof.
  split; [reflexivity|].
  pose proof (score_and_rank (calm 1000%Z) "lb" 5000%Z "kgen___alice" seeded
                eq_refl eq_refl eq_refl) as H.
  cbv zeta in H.
  change (members (live (clock (calm 1000%Z))
                     (cache (after (ensureLeaderboardExists (calm 1000%Z) "lb" 5000%Z) seeded))
                     (getRedisKey "lb")) !! "kgen___alice")
    with (Some 50%float) in H.
  destruct H as (i & _ & _ & H). exists i. exact H.
Defined.

(** Claim C9 at a helper for the client "kgen" given the ID "other___alice". *)
Lemma helper_recomposes_witness :
  leaderboard.validateNamespacedUserID "other___alice" = Ok ("other", "alice") /\
  "other" <> leaderboard.clientID helperKgen /\
  leaderboard.UpdateScore helperKgen (calm 1000%Z) "other___alice" 5%float seeded
  = UpdateScore (calm 1000%Z) "lb" "kgen___alice" 5%float 5000%Z seeded.
Proof.
  assert (H : "other" <> leaderboard.clientID helperKgen) by discriminate.
  split; [reflexivity|]. split; [exact H|].
  exact (proj1 (proj2 (proj2 (helper_recomposes_id helperKgen (calm 1000%Z)
                                "other___alice" "other" "alice" 5%float seeded eq_refl H)))).
Defined.

(** Claim C10 at a cold cache with the table out of reach. *)
Lemma placeholder_witness :
  EXISTS (clock (tableDown 1000%Z)) (cache seededCold) (getRedisKey "lb") = 0%Z /\
  exists i result,
    runOf (GetTopNParticipants (tableDown 1000%Z) "lb" 0 5000%Z) seededCold = Ok result /\
    result !! i = Some {| customTypes.Member := "";
                          customTypes.Score := 0;
                          customTypes.Rank := Z.of_nat i + 1 |}.
Proof.
  split; [reflexivity|].
  destruct (placeholder_is_ranked (tableDown 1000%Z) "lb" 5000%Z seededCold
              [Del "leaderboard:lb"] (Wrapf "failed to query DynamoDB table" store_error)
              (record (DynamoQuery "lb" 0) (afterExists "lb" seededCold))
              eq_refl eq_refl eq_refl eq_refl) as (i & _ & _ & H & _).
  destruct (H 0%Z eq_refl (or_introl eq_refl)) as (result & Hrun & Hi).
  exists i, result. split; [exact Hrun | exact Hi].
Defined.

(** ** How often a warm-up scans the table *)

Lemma scans_app evs evs' : scans (evs ++ evs') = scans evs + scans evs'.
Proof.
  induction evs as [|e evs IH]; [done|].
  destruct e as [| | | | | |? [|?]| | | |]; simpl; by rewrite IH.
Qed.

Lemma scans_later_pages leaderboardID k j :
  scans (DynamoQuery leaderboardID <$> seq (S k) j) = 0.
Proof. revert k. induction j as [|j IH]; intros k; simpl; [done | apply IH]. Qed.

Lemma scans_pages leaderboardID j : scans (DynamoQuery leaderboardID <$> seq 0 j) <= 1.
Proof. destruct j as [|j]; simpl; [lia | by rewrite scans_later_pages]. Qed.

Lemma EXISTS_cases now (db : gmap string Entry) key :
  EXISTS now db key = 0%Z \/ EXISTS now db key = 1%Z.
Proof. unfold EXISTS. destruct (live now db key); auto. Qed.

(** One warm-up scans the table at most once. *)
Lemma ensure_scans_once env leaderboardID leaderboardEndTime w :
  scans (eventsOf (ensureLeaderboardExists env leaderboardID leaderboardEndTime) w) <= 1.
Proof.
  destruct (EXISTS_cases (clock env) (cache w) (getRedisKey leaderboardID)) as [Hcold|Hwarm].
  - destruct (existsFails env) eqn:Hex.
    + unfold eventsOf, after. rewrite ensure_unfold, Hex. simpl.
      rewrite <- app_assoc, drop_app_length. simpl. lia.
    + destruct (ensure_cold env leaderboardID leaderboardEndTime w Hcold Hex)
        as (zs & j & err & _ & _ & _ & _ & Htr).
      rewrite (eventsOf_eq _ _ _ Htr), !scans_app. simpl.
      pose proof (scans_pages leaderboardID j). lia.
  - destruct (ensure_warm env leaderboardID leaderboardEndTime w Hwarm) as (_ & _ & _ & Htr).
    rewrite (eventsOf_eq _ _ _ Htr). simpl. lia.
Qed.

(** Two warm-ups in a row scan the table at most once, provided the first
    leaves the cache key in existence. *)
Lemma ensure_twice_scans_once env leaderboardID leaderboardEndTime w :
  let ensure := ensureLeaderboardExists env leaderboardID leaderboardEndTime in
  EXISTS (clock env) (cache (after ensure w)) (getRedisKey leaderboardID) = 1%Z ->
  scans (drop (length (trace w)) (trace (after ensure (after ensure w)))) <= 1.
Proof.
  intros ensure Hwarm. unfold ensure in *.
  destruct (ensure_warm env leaderboardID leaderboardEndTime _ Hwarm) as (_ & _ & _ & Htr).
  rewrite Htr, (ensure_extends env leaderboardID leaderboardEndTime w).
  rewrite <- app_assoc, drop_app_length, scans_app. simpl.
  pose proof (ensure_scans_once env leaderboardID leaderboardEndTime w) as Hone. lia.
Qed.

(** A leaderboard without participants is the case the proviso excludes: its
    warm-up queues no member, the key does not come into existence, and the
    next warm-up scans again. *)
Example empty_leaderboard_scanned_twice :
  let ensure := ensureLeaderboardExists (calm 1000%Z) "lb" 5000%Z in
  runOf ensure emptyWorld = Ok tt /\
  EXISTS 1000%Z (cache (after ensure emptyWorld)) "leaderboard:lb" = 0%Z /\
  scans (trace (after ensure (after ensure emptyWorld))) = 2.
Proof. vm_compute. repeat split; reflexivity. Qed.

(** After a scan that fails at its first page the leaderboard reads as one
    participant, the placeholder. *)
Example placeholder_alone :
  runOf (GetTopNParticipants (tableDown 1000%Z) "lb" 10 5000%Z) seededCold
  = Ok [{| customTypes.Member := ""; customTypes.Score := 0; customTypes.Rank := 1 |}].
Proof. vm_compute. reflexivity. Qed.

(** * Further properties of the operations *)

Section ScanExact.

Variable env : Env.
Variable leaderboardID : string.
Variable leaderboardEndTime : Time.
Let key := getRedisKey leaderboardID.
Let ensure := ensureLeaderboardExists env leaderboardID leaderboardEndTime.

Lemma scanPages_exact remaining : forall k pipe w,
  (scanPages env leaderboardID key k remaining pipe w).1
  = (pipe ++ (ZAdd key <$> queued env k remaining), scanError env k remaining).
Proof.
  induction remaining as [|page rest IH]; intros k pipe w; cbn [scanPages queued scanError].
  - simpl. by rewrite app_nil_r.
  - destruct (queryFails env k); [simpl; by rewrite app_nil_r|].
    rewrite IH. unfold processPage. destruct (unmarshalFails env k); simpl; [done|].
    f_equal. rewrite fmap_app, <- app_assoc, <- list_fmap_compose. done.
Qed.

Lemma sync_exact w :
  exists w1,
    syncLeaderboard env leaderboardID [] w
    = ((Del key :: (ZAdd key <$> queued env 0 (pagesOf env leaderboardID w)),
        scanError env 0 (pagesOf env leaderboardID w)), w1) /\
    table w1 = table w /\ cache w1 = cache w.
Proof.
  destruct (sync_shape env leaderboardID [] w) as (zs & j & err & Hs).
  pose proof (scanPages_exact (pagesOf env leaderboardID w) 0 ([] ++ [Del key]) w) as He.
  unfold syncLeaderboard in Hs |- *. fold key in Hs |- *. unfold pagesOf in *.
  rewrite Hs in He |- *. simpl in He. injection He as Hp Herr.
  eexists. split; [simpl; by rewrite Hp, Herr|]. done.
Qed.

Lemma ensure_ok w :
  existsFails env = false -> warmExecFails env = false ->
  runOf ensure w = Ok tt.
Proof.
  intros Hex Hok. unfold runOf, ensure. rewrite ensure_unfold, Hex.
  destruct (_ =? _)%Z; [|done].
  destruct (syncLeaderboard _ _ _ _) as [[pipe err] w1]. by rewrite Hok.
Qed.

(** The key a warm-up from a cold cache leaves behind: none when nothing was
    queued, and else the queued members under the deadline of the batch. *)
Lemma warm_entry w :
  EXISTS (clock env) (cache w) key = 0%Z ->
  existsFails env = false -> warmExecFails env = false ->
  cache (after ensure w) !! key
  = match queued env 0 (pagesOf env leaderboardID w)
            ++ placeholderPart (scanError env 0 (pagesOf env leaderboardID w)) with
    | [] => None
    | z :: zs =>
        Some (mkEntry (addAll ∅ (z :: zs))
                (if (clock env <? expiryDeadline leaderboardEndTime)%Z
                 then Some (expiryDeadline leaderboardEndTime) else None))
    end.
Proof.
  intros Hcold Hex Hok. unfold after, ensure. rewrite ensure_unfold. fold key.
  rewrite Hex, Hcold. simpl.
  destruct (sync_exact (afterExists leaderboardID w)) as (w1 & Hs & _ & Hc).
  change (pagesOf env leaderboardID (afterExists leaderboardID w))
    with (pagesOf env leaderboardID w) in Hs.
  rewrite Hs, Hok. cbn [snd cache setCache record]. rewrite Hc.
  change (cache (afterExists leaderboardID w)) with (cache w).
  fold key. rewrite warmBatch_shape. fold key.
  rewrite exec_warm_batch. by destruct (_ ++ _).
Qed.

(** The sorted set a warm-up from a cold cache leaves behind. *)
Lemma warm_members w :
  EXISTS (clock env) (cache w) key = 0%Z ->
  existsFails env = false -> warmExecFails env = false ->
  members (live (clock env) (cache (after ensure w)) key)
  = addAll ∅ (queued env 0 (pagesOf env leaderboardID w)
                ++ placeholderPart (scanError env 0 (pagesOf env leaderboardID w))).
Proof.
  intros Hcold Hex Hok. unfold live. rewrite (warm_entry w Hcold Hex Hok).
  destruct (_ ++ _) as [|z zs]; [done|].
  unfold expired. simpl.
  destruct (Z.ltb_spec (clock env) (expiryDeadline leaderboardEndTime)); [|done].
  simpl. destruct (Z.leb_spec (expiryDeadline leaderboardEndTime) (clock env)); [lia|done].
Qed.

End ScanExact.

Section TableFacts.

Implicit Types t : gmap (string * string) dynamodb.Item.
Implicit Types zs : list ZPair.

Lemma paginate_concat {A} k room (l : list A) : concat (dynamodb.paginate k room l) = l.
Proof.
  revert room. induction l as [|x l IH]; intros room; simpl; [done|].
  destruct room as [|r].
  - specialize (IH k). destruct (dynamodb.paginate k k l); simpl in *; by f_equal.
  - specialize (IH r). destruct (dynamodb.paginate k r l); simpl in *; by f_equal.
Qed.

Lemma insertItem_elem a l it : it ∈ dynamodb.insertItem a l <-> it = a \/ it ∈ l.
Proof.
  induction l as [|b l IH]; simpl.
  - rewrite list_elem_of_singleton, elem_of_nil. tauto.
  - destruct (String.leb _ _); [apply elem_of_cons|]. rewrite !elem_of_cons, IH. tauto.
Qed.

Lemma partition_elem lid t it :
  it ∈ dynamodb.partition lid t
  <-> dynamodb.leaderboardID it = lid /\ exists key, t !! key = Some it.
Proof.
  unfold dynamodb.partition.
  assert (Hsort : forall l, it ∈ foldr dynamodb.insertItem [] l <-> it ∈ l).
  { induction l as [|a l IH]; simpl; [done|].
    rewrite insertItem_elem, IH, elem_of_cons. tauto. }
  rewrite Hsort, list_elem_of_filter, bool_decide_spec, list_elem_of_fmap. split.
  - intros [Hl ([k it'] & -> & Hin)]. split; [done|]. exists k.
    by apply elem_of_map_to_list.
  - intros [Hl [k Hk]]. split; [done|]. exists (k, it). split; [done|].
    by apply elem_of_map_to_list.
Qed.

Lemma partition_lookup lid t it :
  consistent t -> it ∈ dynamodb.partition lid t ->
  t !! (lid, dynamodb.namespacedUserID it) = Some it.
Proof.
  intros Hc [Hl [k Hk]]%partition_elem. pose proof (Hc k it Hk) as Hkey.
  unfold dynamodb.keyOf in Hkey. by rewrite Hl in Hkey; subst k.
Qed.

Lemma lookup_partition lid m t it :
  consistent t -> t !! (lid, m) = Some it ->
  it ∈ dynamodb.partition lid t /\ dynamodb.namespacedUserID it = m.
Proof.
  intros Hc Hk. pose proof (Hc _ _ Hk) as Hkey. unfold dynamodb.keyOf in Hkey.
  injection Hkey as Hl Hm. split; [|done]. apply partition_elem. eauto.
Qed.

Lemma addAll_cons (M : gmap string float) z zs :
  addAll M (z :: zs) = addAll (<[Member z := Score z]> M) zs.
Proof. reflexivity. Qed.

Lemma addAll_lookup_in zs : forall (M : gmap string float) m x,
  addAll M zs !! m = Some x ->
  M !! m = Some x \/ exists z, z ∈ zs /\ Member z = m /\ Score z = x.
Proof.
  induction zs as [|z zs IH]; intros M m x H; [by left|].
  rewrite addAll_cons in H. apply IH in H as [H | (z' & Hin & Hm & Hx)].
  - destruct (decide (Member z = m)) as [E|E].
    + rewrite E, lookup_insert_eq in H. injection H as H. right. exists z.
      split; [apply elem_of_cons; by left | done].
    + rewrite lookup_insert_ne in H by done. by left.
  - right. exists z'. split; [apply elem_of_cons; by right | done].
Qed.

Lemma addAll_is_Some zs : forall (M : gmap string float) m,
  is_Some (M !! m) \/ (exists z, z ∈ zs /\ Member z = m) ->
  is_Some (addAll M zs !! m).
Proof.
  induction zs as [|z zs IH]; intros M m H.
  - destruct H as [H | (z & Hin & _)]; [done | by apply elem_of_nil in Hin].
  - rewrite addAll_cons. apply IH.
    destruct (decide (Member z = m)) as [E|E].
    + left. rewrite E, lookup_insert_eq. eauto.
    + destruct H as [H | (z' & Hin & Hm)].
      * left. by rewrite lookup_insert_ne.
      * apply elem_of_cons in Hin as [-> | Hin]; [done|]. right. eauto.
Qed.

Lemma queued_sub env remaining : forall k z,
  z ∈ queued env k remaining -> exists it, it ∈ concat remaining /\ z = itemZ it.
Proof.
  induction remaining as [|page rest IH]; intros k z; cbn [queued].
  - by intros ?%elem_of_nil.
  - destruct (queryFails env k); [by intros ?%elem_of_nil|].
    intros [Hin | Hin]%elem_of_app.
    + destruct (unmarshalFails env k); [by apply elem_of_nil in Hin|].
      apply list_elem_of_fmap in Hin as (it & -> & Hin). exists it. split; [|done].
      simpl. apply elem_of_app. by left.
    + destruct (IH _ _ Hin) as (it & Hit & ->). exists it. split; [|done].
      simpl. apply elem_of_app. by right.
Qed.

Lemma queued_clean env remaining : forall k,
  cleanScan env ->
  queued env k remaining = itemZ <$> concat remaining /\ scanError env k remaining = None.
Proof.
  induction remaining as [|page rest IH]; intros k Hclean; cbn [queued scanError]; [done|].
  destruct (Hclean k) as [-> ->]. destruct (IH (S k) Hclean) as [-> ->].
  simpl. by rewrite fmap_app.
Qed.

End TableFacts.

Section WarmContents.

Variable env : Env.
Variable leaderboardID : string.
Variable leaderboardEndTime : Time.
Let key := getRedisKey leaderboardID.
Let ensure := ensureLeaderboardExists env leaderboardID leaderboardEndTime.

Lemma concat_pagesOf w :
  concat (pagesOf env leaderboardID w) = dynamodb.partition leaderboardID (table w).
Proof. apply paginate_concat. Qed.

(** Whatever a warm-up put into the cache, apart from the placeholder, is an
    item of the leaderboard's partition with its score. *)
Lemma warm_members_sound w member x :
  consistent (table w) ->
  EXISTS (clock env) (cache w) key = 0%Z ->
  existsFails env = false -> warmExecFails env = false ->
  member <> "" ->
  members (live (clock env) (cache (after ensure w)) key) !! member = Some x ->
  exists it, table w !! (leaderboardID, member) = Some it /\ dynamodb.score it = x.
Proof.
  intros Hcons Hcold Hex Hok Hne. unfold ensure, key in *.
  rewrite (warm_members env leaderboardID leaderboardEndTime w Hcold Hex Hok).
  intros [H | (z & Hin & Hm & Hx)]%addAll_lookup_in; [done|].
  apply elem_of_app in Hin as [Hin | Hin].
  - apply queued_sub in Hin as (it & Hit & ->). rewrite concat_pagesOf in Hit.
    exists it. simpl in Hm. subst member. split; [|done].
    by apply partition_lookup.
  - unfold placeholderPart in Hin. destruct (scanError _ _ _).
    + apply list_elem_of_singleton in Hin. subst z. simpl in Hm. congruence.
    + by apply elem_of_nil in Hin.
Qed.

(** After a warm-up whose scan went through, the cache holds the scores of
    the table. *)
Lemma warm_members_exact w member :
  consistent (table w) ->
  EXISTS (clock env) (cache w) key = 0%Z ->
  existsFails env = false -> warmExecFails env = false ->
  cleanScan env ->
  members (live (clock env) (cache (after ensure w)) key) !! member
  = dynamodb.score <$> table w !! (leaderboardID, member).
Proof.
  intros Hcons Hcold Hex Hok Hclean. unfold ensure, key in *.
  rewrite (warm_members env leaderboardID leaderboardEndTime w Hcold Hex Hok).
  destruct (queued_clean env (pagesOf env leaderboardID w) 0 Hclean) as [-> ->].
  rewrite concat_pagesOf. simpl. rewrite app_nil_r.
  assert (Hsound : forall x,
    addAll ∅ (itemZ <$> dynamodb.partition leaderboardID (table w)) !! member = Some x ->
    exists it, table w !! (leaderboardID, member) = Some it /\ dynamodb.score it = x).
  { intros x [H | (z & Hin & Hm & Hx)]%addAll_lookup_in; [done|].
    apply list_elem_of_fmap in Hin as (it & -> & Hin). simpl in Hm. subst member.
    exists it. split; [by apply partition_lookup | done]. }
  destruct (table w !! (leaderboardID, member)) as [it|] eqn:Ht; simpl.
  - destruct (lookup_partition _ _ _ _ Hcons Ht) as [Hin Hm].
    destruct (addAll_is_Some (itemZ <$> dynamodb.partition leaderboardID (table w)) ∅ member)
      as [x Hx].
    { right. exists (itemZ it). split; [|done]. apply list_elem_of_fmap. eauto. }
    rewrite Hx. destruct (Hsound x Hx) as (it' & Hit' & <-). congruence.
  - destruct (addAll _ _ !! member) as [x|] eqn:Hx; [|done].
    by destruct (Hsound x eq_refl) as (it' & Hit' & _).
Qed.

End WarmContents.

Section CacheCommands.

Variable now : Time.
Implicit Types db : gmap string Entry.

Lemma expired_live db key e :
  live now db key = Some e -> expired now e = false.
Proof.
  unfold live. destruct (db !! key) as [e'|]; [|done].
  destruct (expired now e') eqn:E; [done|]. by intros [= <-].
Qed.

(** Writing a sorted set back under the deadline it had makes it the set
    the key holds. *)
Lemma members_live_store db key (zs : gmap string float) :
  members (live now (store key zs (deadlineOf (live now db key)) db) key) = zs.
Proof.
  unfold store. destruct (Nat.eqb_spec (size zs) 0) as [Hz|Hz].
  - apply map_size_empty_iff in Hz. subst zs.
    unfold live. by rewrite lookup_delete_eq.
  - unfold live at 1. rewrite lookup_insert_eq.
    destruct (live now db key) as [e|] eqn:He; simpl.
    + apply expired_live in He. unfold expired in *. simpl. by rewrite He.
    + done.
Qed.

Lemma ZSCORE_ZAdd db key z member :
  ZSCORE now (apply now db (ZAdd key z)) key member
  = if decide (Member z = member) then Some (Score z) else ZSCORE now db key member.
Proof.
  unfold ZSCORE. cbn [apply]. rewrite members_live_store.
  destruct (decide (Member z = member)) as [->|Hne].
  - apply lookup_insert_eq.
  - by apply lookup_insert_ne.
Qed.

Lemma ZSCORE_ZIncrBy db key incr m member :
  ZSCORE now (apply now db (ZIncrBy key incr m)) key member
  = if decide (m = member)
    then Some (default 0 (ZSCORE now db key m) + incr)%float
    else ZSCORE now db key member.
Proof.
  unfold ZSCORE. cbn [apply]. rewrite members_live_store.
  destruct (decide (m = member)) as [->|Hne].
  - apply lookup_insert_eq.
  - by apply lookup_insert_ne.
Qed.

Lemma ZSCORE_ZRem db key m member :
  ZSCORE now (apply now db (ZRem key m)) key member
  = if decide (m = member) then None else ZSCORE now db key member.
Proof.
  unfold ZSCORE. cbn [apply]. rewrite members_live_store.
  destruct (decide (m = member)) as [->|Hne].
  - apply lookup_delete_eq.
  - by apply lookup_delete_ne.
Qed.

(** A removed member is gone at whatever time the key is read. *)
Lemma ZRem_gone db key m now' :
  members (live now' (apply now db (ZRem key m)) key) !! m = None.
Proof.
  cbn [apply]. unfold store.
  destruct (Nat.eqb (size (delete m (members (live now db key)))) 0).
  - unfold live. by rewrite lookup_delete_eq.
  - unfold live. rewrite lookup_insert_eq.
    destruct (expired now' _); [done|]. simpl. apply lookup_delete_eq.
Qed.

(** A command leaves every key but its own as it is. *)
Lemma apply_other db c key' :
  cmdKey c <> key' -> apply now db c !! key' = db !! key'.
Proof.
  intros Hne. destruct c as [k|k z|k i m|k m|k d]; simpl in Hne; cbn [apply].
  - by apply lookup_delete_ne.
  - unfold store. destruct (Nat.eqb _ 0);
      [by apply lookup_delete_ne | by apply lookup_insert_ne].
  - unfold store. destruct (Nat.eqb _ 0);
      [by apply lookup_delete_ne | by apply lookup_insert_ne].
  - unfold store. destruct (Nat.eqb _ 0);
      [by apply lookup_delete_ne | by apply lookup_insert_ne].
  - destruct (live now db k); [|by apply lookup_delete_ne].
    destruct (d <=? 0)%Z; [by apply lookup_delete_ne | by apply lookup_insert_ne].
Qed.

Lemma exec_other cmds : forall db key',
  Forall (fun c => cmdKey c <> key') cmds ->
  exec now cmds db !! key' = db !! key'.
Proof.
  induction cmds as [|c cmds IH]; intros db key' H; [done|].
  apply Forall_cons in H as [Hc H].
  change (exec now (c :: cmds) db) with (exec now cmds (apply now db c)).
  rewrite IH by done. by apply apply_other.
Qed.

End CacheCommands.

Lemma getRedisKey_inj a b : getRedisKey a = getRedisKey b -> a = b.
Proof. unfold getRedisKey. rewrite !append_cons. by intros [= H]. Qed.

Lemma update_consistent (key : string * string) (incVal : float) (now : Time)
    (t : gmap (string * string) dynamodb.Item) :
  consistent t -> consistent (dynamodb.update key incVal now t).
Proof.
  intros Hc k it. unfold dynamodb.update.
  destruct (t !! key) as [it0|] eqn:E.
  - destruct (decide (key = k)) as [<-|Hne].
    + rewrite lookup_insert_eq. intros [= <-]. apply (Hc _ _ E).
    + rewrite lookup_insert_ne by done. apply Hc.
  - destruct (decide (key = k)) as [<-|Hne].
    + rewrite lookup_insert_eq. intros [= <-]. by destruct key.
    + rewrite lookup_insert_ne by done. apply Hc.
Qed.

Lemma delete_consistent (key : string * string) (t : gmap (string * string) dynamodb.Item) :
  consistent t -> consistent (delete key t).
Proof.
  intros Hc k it. destruct (decide (key = k)) as [<-|Hne].
  - by rewrite lookup_delete_eq.
  - rewrite lookup_delete_ne by done. apply Hc.
Qed.

Lemma update_score (key : string * string) (incVal : float) (now : Time)
    (t : gmap (string * string) dynamodb.Item) :
  dynamodb.score <$> dynamodb.update key incVal now t !! key
  = Some (default 0 (dynamodb.score <$> t !! key) + incVal)%float.
Proof.
  unfold dynamodb.update. destruct (t !! key) as [it|]; simpl;
    by rewrite lookup_insert_eq.
Qed.

Section LedgerEffects.

Variable env : Env.
Variable leaderboardID : string.
Variable leaderboardEndTime : Time.
Let key := getRedisKey leaderboardID.
Let ensure := ensureLeaderboardExists env leaderboardID leaderboardEndTime.

(** The outcome of a warm-up as a pair. *)
Lemma ensure_pair w :
  ensure w = (runOf ensure w, after ensure w).
Proof. unfold runOf, after. by destruct (ensure w). Qed.

(** X7.  On a warm cache a successful [UpdateScore] adds the delta to the
    member's cached score (0 when it had none) and leaves the other members
    alone; the table's score grows by the delta as the table reads it. *)
Theorem update_score_warm member delta w :
  EXISTS (clock env) (cache w) key = 1%Z ->
  updateItemFails env = false -> existsFails env = false -> execFails env = false ->
  let m := UpdateScore env leaderboardID member delta leaderboardEndTime in
  runOf m w = Ok tt /\
  dynamodb.score <$> table (after m w) !! (leaderboardID, member)
    = Some (default 0 (dynamodb.score <$> table w !! (leaderboardID, member))
            + fmtF env delta)%float /\
  ZSCORE (clock env) (cache (after m w)) key member
    = Some (default 0 (ZSCORE (clock env) (cache w) key member) + delta)%float /\
  forall other, other <> member ->
    ZSCORE (clock env) (cache (after m w)) key other
    = ZSCORE (clock env) (cache w) key other.
Proof.
  intros Hwarm Hu Hex Hexec m. unfold m, runOf, after.
  rewrite UpdateScore_unfold, Hu. cbv zeta.
  set (w2 := setTable _ _).
  destruct (ensure_warm env leaderboardID leaderboardEndTime w2 Hwarm) as (Hr & Ht & Hc & _).
  rewrite Hex in Hr. rewrite ensure_pair. fold ensure in Hr, Ht, Hc. rewrite Hr, Hexec.
  cbn [fst snd table cache setCache record]. rewrite Ht, Hc.
  split; [done|]. split; [apply update_score|].
  change (cache w2) with (cache w). rewrite exec_one. fold key. split.
  - rewrite ZSCORE_ZIncrBy. by rewrite decide_True.
  - intros other Hne. rewrite ZSCORE_ZIncrBy. by rewrite decide_False.
Qed.

(** X8.  On a cold cache a successful [UpdateScore] leaves the cached score
    one delta above the score the table now holds: the warm-up loads the
    score the table was just given, and the queued increment comes on top. *)
Theorem update_score_cold member delta w :
  consistent (table w) ->
  EXISTS (clock env) (cache w) key = 0%Z ->
  cleanScan env ->
  updateItemFails env = false -> existsFails env = false ->
  warmExecFails env = false -> execFails env = false ->
  let m := UpdateScore env leaderboardID member delta leaderboardEndTime in
  let stored := (default 0 (dynamodb.score <$> table w !! (leaderboardID, member))
                 + fmtF env delta)%float in
  runOf m w = Ok tt /\
  dynamodb.score <$> table (after m w) !! (leaderboardID, member) = Some stored /\
  ZSCORE (clock env) (cache (after m w)) key member = Some (stored + delta)%float.
Proof.
  intros Hcons Hcold Hclean Hu Hex Hok Hexec m stored. unfold m, runOf, after.
  rewrite UpdateScore_unfold, Hu. cbv zeta.
  set (w2 := setTable _ _).
  assert (Hcons2 : consistent (table w2)) by (by apply update_consistent).
  assert (Hcold2 : EXISTS (clock env) (cache w2) key = 0%Z) by done.
  pose proof (warm_members_exact env leaderboardID leaderboardEndTime w2 member
                Hcons2 Hcold2 Hex Hok Hclean) as Hm.
  pose proof (ensure_ok env leaderboardID leaderboardEndTime w2 Hex Hok) as Hr.
  pose proof (ensure_table env leaderboardID leaderboardEndTime w2) as Ht.
  rewrite ensure_pair. fold ensure in Hm, Hr, Ht. rewrite Hr, Hexec.
  cbn [fst snd table cache setCache record]. rewrite Ht.
  split; [done|]. split; [apply update_score|].
  rewrite exec_one. fold key. rewrite ZSCORE_ZIncrBy, decide_True by done.
  unfold ZSCORE. fold key in Hm. rewrite Hm.
  change (table w2) with (dynamodb.update (leaderboardID, member) (fmtF env delta)
                            (clock env) (table w)).
  by rewrite update_score.
Qed.

(** X9.  When the submission of the increment fails, [UpdateScore] returns
    the error "failed to update Redis sorted set" although the table has
    taken the delta; the cache is as it was. *)
Theorem update_score_partial member delta w :
  EXISTS (clock env) (cache w) key = 1%Z ->
  updateItemFails env = false -> existsFails env = false -> execFails env = true ->
  let m := UpdateScore env leaderboardID member delta leaderboardEndTime in
  runOf m w = Err (Wrapf "failed to update Redis sorted set" store_error) /\
  cache (after m w) = cache w /\
  dynamodb.score <$> table (after m w) !! (leaderboardID, member)
    = Some (default 0 (dynamodb.score <$> table w !! (leaderboardID, member))
            + fmtF env delta)%float.
Proof.
  intros Hwarm Hu Hex Hexec m. unfold m, runOf, after.
  rewrite UpdateScore_unfold, Hu. cbv zeta.
  set (w2 := setTable _ _).
  destruct (ensure_warm env leaderboardID leaderboardEndTime w2 Hwarm) as (Hr & Ht & Hc & _).
  rewrite Hex in Hr. rewrite ensure_pair. fold ensure in Hr, Ht, Hc. rewrite Hr, Hexec.
  cbn [fst snd table cache setCache record]. rewrite Ht, Hc.
  split; [done|]. split; [done|]. apply update_score.
Qed.

(** X11.  A successful [LeaveLeaderboard] removes the member from the cache
    and its item from the table, and nothing else: the other members keep
    their scores and the other items stay. *)
Theorem leave_removes member w :
  execFails env = false -> deleteItemFails env = false ->
  let m := LeaveLeaderboard env leaderboardID member in
  runOf m w = Ok tt /\
  ZSCORE (clock env) (cache (after m w)) key member = None /\
  table (after m w) !! (leaderboardID, member) = None /\
  (forall other, other <> member ->
     ZSCORE (clock env) (cache (after m w)) key other
     = ZSCORE (clock env) (cache w) key other) /\
  (forall k, k <> (leaderboardID, member) -> table (after m w) !! k = table w !! k).
Proof.
  intros Hexec Hdel m. unfold m, runOf, after.
  rewrite LeaveLeaderboard_unfold, Hexec, Hdel. cbv zeta.
  cbn [fst snd table cache setTable setCache record]. rewrite exec_one. fold key.
  split; [done|]. split; [by rewrite ZSCORE_ZRem, decide_True|].
  split; [apply lookup_delete_eq|]. split.
  - intros other Hne. by rewrite ZSCORE_ZRem, decide_False.
  - intros k Hne. by apply lookup_delete_ne.
Qed.

(** X12.  [LeaveLeaderboard] that cannot submit the removal returns at once:
    neither store changes and the table is not called.  When the removal
    goes through and the delete fails, the member is gone from the cache
    while its item stays in the table. *)
Theorem leave_failures member w :
  let m := LeaveLeaderboard env leaderboardID member in
  (execFails env = true ->
   runOf m w = Err (Wrapf "failed to remove participant from Redis sorted set" store_error) /\
   cache (after m w) = cache w /\ table (after m w) = table w /\
   eventsOf m w = [RedisExec [ZRem key member]]) /\
  (execFails env = false -> deleteItemFails env = true ->
   runOf m w = Err (Wrapf "failed to delete participant from DynamoDB" store_error) /\
   ZSCORE (clock env) (cache (after m w)) key member = None /\
   table (after m w) = table w).
Proof.
  intros m. split.
  - intros Hexec. unfold m, runOf, after, eventsOf, after.
    rewrite LeaveLeaderboard_unfold, Hexec. cbv zeta. simpl.
    split; [done|]. split; [done|]. split; [done|]. fold key. apply drop_app_length.
  - intros Hexec Hdel. unfold m, runOf, after.
    rewrite LeaveLeaderboard_unfold, Hexec, Hdel. cbv zeta.
    cbn [fst snd table cache setTable setCache record]. rewrite exec_one. fold key.
    split; [done|]. split; [by rewrite ZSCORE_ZRem, decide_True | done].
Qed.

End LedgerEffects.

Section JoinEffects.

Variable env : Env.
Variable p : models.ParticipantModel.
Variable leaderboardEndTime : Time.
Let key := getRedisKey (models.LeaderboardID p).
Let member := models.NamespacedUserID p.

(** X10.  A [JoinLeaderboard] that goes through, on a cold or a warm cache,
    stores the participant's item under its key and sets the cached score of
    the member to the participant's score; the other items of the table
    stay. *)
Theorem join_sets_score w :
  getItemFails env = false -> putItemFails env = false ->
  existsFails env = false -> warmExecFails env = false -> execFails env = false ->
  let m := JoinLeaderboard env p leaderboardEndTime in
  runOf m w = Ok tt /\
  table (after m w) !! (models.LeaderboardID p, member)
    = Some (itemOf (setUpdatedAt (clock env) p)) /\
  ZSCORE (clock env) (cache (after m w)) key member = Some (models.Score p) /\
  forall k, k <> (models.LeaderboardID p, member) -> table (after m w) !! k = table w !! k.
Proof.
  intros Hg Hp Hex Hok Hexec m. unfold m, runOf, after.
  rewrite JoinLeaderboard_unfold, Hg, Hp. cbv zeta.
  set (w3 := setTable _ _).
  pose proof (ensure_ok env (models.LeaderboardID p) leaderboardEndTime w3 Hex Hok) as Hr.
  pose proof (ensure_table env (models.LeaderboardID p) leaderboardEndTime w3) as Ht.
  rewrite (ensure_pair env (models.LeaderboardID p) leaderboardEndTime w3), Hr, Hexec.
  cbn [fst snd table cache setCache record]. rewrite Ht.
  split; [done|]. split; [apply lookup_insert_eq|]. split.
  - rewrite exec_one. fold key. rewrite ZSCORE_ZAdd. by rewrite decide_True.
  - intros k Hne. by apply lookup_insert_ne.
Qed.

End JoinEffects.

Section LeaveThenRead.

Variable env env' : Env.
Variable leaderboardID : string.
Variable leaderboardEndTime : Time.
Let key := getRedisKey leaderboardID.

(** X13.  After a successful [LeaveLeaderboard], the next
    [GetParticipantScoreAndRank] for that member answers "participant not
    found in leaderboard", whether the cache is still warm or has to be warmed
    up again, and whatever the scan of that warm-up does. *)
Theorem leave_then_read member w :
  consistent (table w) -> member <> "" ->
  execFails env = false -> deleteItemFails env = false ->
  existsFails env' = false -> warmExecFails env' = false -> zscoreFails env' = false ->
  runOf (GetParticipantScoreAndRank env' leaderboardID member leaderboardEndTime)
    (after (LeaveLeaderboard env leaderboardID member) w)
  = Err (Errorf "participant not found in leaderboard").
Proof.
  intros Hcons Hne Hexec Hdel Hex Hok Hz.
  set (w1 := after (LeaveLeaderboard env leaderboardID member) w).
  assert (Ht : table w1 = delete (leaderboardID, member) (table w)).
  { unfold w1, after. by rewrite LeaveLeaderboard_unfold, Hexec, Hdel. }
  assert (Hc : cache w1 = apply (clock env) (cache w) (ZRem key member)).
  { unfold w1, after. by rewrite LeaveLeaderboard_unfold, Hexec, Hdel. }
  rewrite GetPSR_run.
  rewrite (ensure_ok env' leaderboardID leaderboardEndTime w1 Hex Hok), Hz.
  assert (Hnone : ZSCORE (clock env')
            (cache (after (ensureLeaderboardExists env' leaderboardID leaderboardEndTime) w1))
            (getRedisKey leaderboardID) member = None); [|by rewrite Hnone].
  unfold ZSCORE. fold key.
  destruct (EXISTS_cases (clock env') (cache w1) key) as [Hcold | Hwarm].
  - destruct (members _ !! member) as [x|] eqn:Hx; [|done].
    assert (Hcons1 : consistent (table w1)) by (rewrite Ht; by apply delete_consistent).
    destruct (warm_members_sound env' leaderboardID leaderboardEndTime w1 member x
                Hcons1 Hcold Hex Hok Hne Hx) as (it & Hit & _).
    by rewrite Ht, lookup_delete_eq in Hit.
  - destruct (ensure_warm env' leaderboardID leaderboardEndTime w1 Hwarm) as (_ & _ & Hc' & _).
    fold key in Hc'. rewrite Hc', Hc. apply ZRem_gone.
Qed.

End LeaveThenRead.

Section Listing.

Implicit Types l : list ZPair.

Lemma insertDesc_perm a l : insertDesc a l ≡ₚ a :: l.
Proof.
  induction l as [|b l IH]; simpl; [done|].
  destruct (before a b); [done|]. rewrite IH. apply Permutation_swap.
Qed.

Lemma sortDesc_perm l : foldr insertDesc [] l ≡ₚ l.
Proof.
  induction l as [|a l IH]; simpl; [done|]. by rewrite insertDesc_perm, IH.
Qed.

Lemma revList_length (m : gmap string float) : length (revList m) = size m.
Proof.
  unfold revList. rewrite sortDesc_perm, length_fmap. apply length_map_to_list.
Qed.

Lemma revList_NoDup (m : gmap string float) : NoDup (Member <$> revList m).
Proof.
  unfold revList. rewrite sortDesc_perm, <- list_fmap_compose.
  apply (NoDup_fst_map_to_list m).
Qed.

Lemma indexOf_NoDup l : forall i z,
  NoDup (Member <$> l) -> l !! i = Some z -> indexOf (Member z) l = Some i.
Proof.
  induction l as [|a l IH]; intros i z Hnd Hl; [done|].
  apply NoDup_cons in Hnd as [Hnotin Hnd]. destruct i as [|i]; simpl in *.
  - injection Hl as ->. by rewrite String.eqb_refl.
  - destruct (String.eqb_spec (Member a) (Member z)) as [E|_].
    + destruct Hnotin. rewrite E. apply list_elem_of_fmap. exists z.
      split; [done|]. by apply list_elem_of_lookup_2 in Hl.
    + by rewrite (IH i z Hnd Hl).
Qed.

(** A range that starts at 0 is a prefix. *)
Lemma rangeOf_prefix {A} (l : list A) stop :
  exists c,
    rangeOf l 0 stop = take c l /\
    ((0 <= stop)%Z -> (Z.of_nat c <= stop + 1)%Z) /\
    (stop = (-1)%Z -> c = length l).
Proof.
  unfold rangeOf. cbn zeta. change (0 <? 0)%Z with false. cbv iota.
  destruct (_ || _) eqn:E.
  - exists 0. split; [by destruct l|]. split; [lia|]. intros ->.
    change (-1 <? 0)%Z with true in E. cbv iota in E.
    apply orb_true_iff in E as [E|E]; [apply Z.ltb_lt in E | apply Z.leb_le in E]; lia.
  - apply orb_false_iff in E as [E1 E2]. apply Z.ltb_ge in E1. apply Z.leb_gt in E2.
    eexists. split; [by rewrite drop_0|]. split.
    + intros Hs. destruct (Z.ltb_spec stop 0); lia.
    + intros ->. change (-1 <? 0)%Z with true in *. cbv iota in *. lia.
Qed.

Lemma revList_empty : revList ∅ = [].
Proof. unfold revList. by rewrite map_to_list_empty. Qed.

Lemma rangeOf_nil {A} start stop : rangeOf (@nil A) start stop = [].
Proof.
  unfold rangeOf. cbn zeta. change (Z.of_nat (length (@nil A))) with 0%Z.
  destruct (_ || _) eqn:E; [done|]. apply orb_false_iff in E as [_ E].
  apply Z.leb_gt in E. destruct (Z.ltb_spec start 0); lia.
Qed.

Lemma withRanks_length l : forall k, length (withRanks k l) = length l.
Proof. induction l as [|a l IH]; intros k; simpl; [done | by rewrite IH]. Qed.

Lemma withRanks_members l : forall k,
  customTypes.Member <$> withRanks k l = Member <$> l.
Proof. induction l as [|a l IH]; intros k; simpl; [done | by rewrite IH]. Qed.

Lemma withRanks_lookup_inv l k i ms :
  withRanks k l !! i = Some ms ->
  exists z, l !! i = Some z /\
    ms = {| customTypes.Member := Member z; customTypes.Score := Score z;
            customTypes.Rank := Z.of_nat (k + i) + 1 |}.
Proof.
  intros H. pose proof (lookup_lt_Some _ _ _ H) as Hlt. rewrite withRanks_length in Hlt.
  destruct (lookup_lt_is_Some_2 l i Hlt) as [z Hz]. exists z. split; [done|].
  rewrite (withRanks_lookup l k i z Hz) in H. by injection H.
Qed.

End Listing.

Section ReadShape.

Variable env : Env.
Variable leaderboardID : string.
Variable leaderboardEndTime : Time.
Let key := getRedisKey leaderboardID.
Let ensure := ensureLeaderboardExists env leaderboardID leaderboardEndTime.

Lemma GetTopN_Ok n w result :
  runOf (GetTopNParticipants env leaderboardID n leaderboardEndTime) w = Ok result ->
  runOf ensure w = Ok tt /\
  exists c,
    result = withRanks 0 (take c (revList (members (live (clock env)
                                                      (cache (after ensure w)) key)))) /\
    ((0 < n < 2 ^ 63)%Z -> (Z.of_nat c <= n)%Z) /\
    (n = 0%Z -> c = size (members (live (clock env) (cache (after ensure w)) key))).
Proof.
  rewrite GetTopN_run. fold ensure key.
  destruct (runOf ensure w) as [[]|e]; [|done].
  destruct (zrevrangeFails env); [done|]. intros [= <-]. split; [done|].
  unfold ZREVRANGE.
  destruct (rangeOf_prefix (revList (members (live (clock env) (cache (after ensure w)) key)))
              (int64 (n - 1))) as (c & -> & Hpos & Hall).
  exists c. split; [done|]. unfold int64 in *. split.
  - intros Hn. rewrite Z.mod_small in Hpos by lia. lia.
  - intros ->. rewrite <- revList_length. by apply Hall.
Qed.

(** X14.  A listing of [GetTopNParticipants] gives the entry at place i the
    rank i+1, lists only members of the cached set with their cached scores,
    lists no member twice, has at most n entries for a positive n, and is the
    whole set for n = 0. *)
Theorem top_n_shape n w result :
  runOf (GetTopNParticipants env leaderboardID n leaderboardEndTime) w = Ok result ->
  let zs := members (live (clock env) (cache (after ensure w)) key) in
  (forall i ms, result !! i = Some ms ->
     customTypes.Rank ms = (Z.of_nat i + 1)%Z /\
     zs !! customTypes.Member ms = Some (customTypes.Score ms)) /\
  NoDup (customTypes.Member <$> result) /\
  length result <= size zs /\
  ((0 < n < 2 ^ 63)%Z -> (Z.of_nat (length result) <= n)%Z) /\
  (n = 0%Z -> length result = size zs).
Proof.
  intros (_ & c & -> & Hpos & Hall)%GetTopN_Ok zs. subst zs.
  set (zs := members _) in *. set (l := revList zs).
  assert (Hlen : length (withRanks 0 (take c l)) = min c (size zs)).
  { rewrite withRanks_length, length_take. unfold l. by rewrite revList_length. }
  split; [|split; [|split; [|split]]].
  - intros i ms (z & Hz & ->)%withRanks_lookup_inv. simpl. split; [done|].
    apply lookup_take_Some in Hz as [Hz _].
    apply list_elem_of_lookup_2 in Hz. by apply revList_elem.
  - rewrite withRanks_members, fmap_take. eapply sublist_NoDup; [|apply sublist_take].
    apply revList_NoDup.
  - rewrite Hlen. lia.
  - intros Hn. rewrite Hlen. specialize (Hpos Hn). lia.
  - intros Hn. rewrite Hlen, (Hall Hn). lia.
Qed.

(** X15.  What [GetTopNParticipants] lists for a member is what
    [GetParticipantScoreAndRank] returns for it from the same world: the same
    score and the same rank. *)
Theorem reads_agree n w result i ms :
  runOf (GetTopNParticipants env leaderboardID n leaderboardEndTime) w = Ok result ->
  result !! i = Some ms ->
  zscoreFails env = false -> zrevrankFails env = false ->
  runOf (GetParticipantScoreAndRank env leaderboardID (customTypes.Member ms)
           leaderboardEndTime) w
  = Ok ms.
Proof.
  intros (Hr & c & -> & _)%GetTopN_Ok (z & Hz & ->)%withRanks_lookup_inv Hs Hk.
  apply lookup_take_Some in Hz as [Hz _]. simpl.
  rewrite GetPSR_run. fold ensure key. rewrite Hr, Hs, Hk.
  unfold ZSCORE, ZREVRANK.
  pose proof (list_elem_of_lookup_2 _ _ _ Hz) as Hin. apply revList_elem in Hin.
  rewrite Hin, (indexOf_NoDup _ i z (revList_NoDup _) Hz). done.
Qed.

End ReadShape.

Section Frames.

Variable env : Env.
Variable leaderboardID : string.
Variable leaderboardEndTime : Time.
Let key := getRedisKey leaderboardID.
Let ensure := ensureLeaderboardExists env leaderboardID leaderboardEndTime.

Lemma warmBatch_keys zs err key' :
  key <> key' ->
  Forall (fun c => cmdKey c <> key')
    (warmBatch env leaderboardID leaderboardEndTime (Del key :: (ZAdd key <$> zs)) err).
Proof.
  intros Hne. unfold warmBatch. fold key. rewrite setup_expiryPart.
  apply Forall_app. split.
  - assert (Hq : Forall (fun c => cmdKey c <> key') (Del key :: (ZAdd key <$> zs))).
    { apply Forall_cons. split; [done|]. by apply Forall_fmap, Forall_forall. }
    destruct err; [|done]. apply Forall_app. split; [done|].
    apply Forall_cons. split; [done|]. by apply Forall_nil.
  - unfold expiryPart. destruct (_ <? _)%Z; [|by apply Forall_nil].
    apply Forall_cons. split; [done|]. by apply Forall_nil.
Qed.

Lemma ensure_cache_other w key' :
  key <> key' -> cache (after ensure w) !! key' = cache w !! key'.
Proof.
  intros Hne. unfold after, ensure. rewrite ensure_unfold.
  destruct (existsFails env); [done|].
  destruct (_ =? _)%Z; [|done].
  destruct (sync_shape env leaderboardID [] (afterExists leaderboardID w))
    as (zs & j & err & ->).
  destruct (warmExecFails env); [done|].
  cbn [snd cache setCache record app]. fold key.
  rewrite exec_other; [done|]. by apply warmBatch_keys.
Qed.

Lemma GetTopN_stores n w :
  let m := GetTopNParticipants env leaderboardID n leaderboardEndTime in
  table (after m w) = table (after ensure w) /\ cache (after m w) = cache (after ensure w).
Proof.
  unfold after, GetTopNParticipants, mbind, M_bind, bind, wrap, ZRevRangeWithScores, call.
  fold ensure. destruct (ensure w) as [[[]|e] w1]; [|done]. simpl.
  by destruct (zrevrangeFails env).
Qed.

Lemma GetPSR_stores member w :
  let m := GetParticipantScoreAndRank env leaderboardID member leaderboardEndTime in
  table (after m w) = table (after ensure w) /\ cache (after m w) = cache (after ensure w).
Proof.
  unfold after, GetParticipantScoreAndRank, mbind, M_bind, bind, wrap, ZScore, ZRevRank.
  fold ensure. destruct (ensure w) as [[[]|e] w1]; [|done]. simpl.
  destruct (zscoreFails env); [done|].
  destruct (ZSCORE _ _ _ _); [|done]. simpl.
  destruct (zrevrankFails env); [done|].
  by destruct (ZREVRANK _ _ _ _).
Qed.

(** X17.  The two reads never change the table, and on a warm cache they
    do not change the cache either. *)
Theorem reads_leave_stores n member w :
  let top := GetTopNParticipants env leaderboardID n leaderboardEndTime in
  let one := GetParticipantScoreAndRank env leaderboardID member leaderboardEndTime in
  table (after top w) = table w /\ table (after one w) = table w /\
  (EXISTS (clock env) (cache w) key = 1%Z ->
   cache (after top w) = cache w /\ cache (after one w) = cache w).
Proof.
  intros top one.
  destruct (GetTopN_stores n w) as [Ht1 Hc1]. destruct (GetPSR_stores member w) as [Ht2 Hc2].
  fold top in Ht1, Hc1. fold one in Ht2, Hc2.
  pose proof (ensure_table env leaderboardID leaderboardEndTime w) as Ht. fold ensure in Ht.
  split; [congruence|]. split; [congruence|]. intros Hwarm.
  destruct (ensure_warm env leaderboardID leaderboardEndTime w Hwarm) as (_ & _ & Hc & _).
  fold ensure in Hc. split; congruence.
Qed.

Lemma UpdateScore_cache_other member delta w key' :
  key <> key' ->
  cache (after (UpdateScore env leaderboardID member delta leaderboardEndTime) w) !! key'
  = cache w !! key'.
Proof.
  intros Hne. unfold after. rewrite UpdateScore_unfold. cbv zeta.
  destruct (updateItemFails env); [done|].
  set (w2 := setTable _ _).
  pose proof (ensure_cache_other w2 key' Hne) as Hc.
  rewrite (ensure_pair env leaderboardID leaderboardEndTime w2). fold ensure.
  destruct (runOf ensure w2) as [[]|e]; [|done].
  destruct (execFails env); [done|].
  cbn [snd cache setCache record]. rewrite exec_one, apply_other; [done | done].
Qed.

Lemma LeaveLeaderboard_cache_other member w key' :
  key <> key' ->
  cache (after (LeaveLeaderboard env leaderboardID member) w) !! key' = cache w !! key'.
Proof.
  intros Hne. unfold after. rewrite LeaveLeaderboard_unfold. cbv zeta.
  destruct (execFails env); [done|].
  destruct (deleteItemFails env);
    cbn [snd cache setTable setCache record]; rewrite exec_one, apply_other; done.
Qed.

Lemma LeaveLeaderboard_table member w :
  table (after (LeaveLeaderboard env leaderboardID member) w)
  = if execFails env || deleteItemFails env then table w
    else delete (leaderboardID, member) (table w).
Proof.
  unfold after. rewrite LeaveLeaderboard_unfold. cbv zeta.
  destruct (execFails env); [done|]. by destruct (deleteItemFails env).
Qed.

End Frames.

Section JoinFrames.

Variable env : Env.
Variable p : models.ParticipantModel.
Variable leaderboardEndTime : Time.
Let key := getRedisKey (models.LeaderboardID p).

Lemma JoinLeaderboard_cache_other w key' :
  key <> key' ->
  cache (after (JoinLeaderboard env p leaderboardEndTime) w) !! key' = cache w !! key'.
Proof.
  intros Hne. unfold after. rewrite JoinLeaderboard_unfold. cbv zeta.
  destruct (getItemFails env); [done|]. destruct (putItemFails env); [done|].
  set (w3 := setTable _ _).
  pose proof (ensure_cache_other env (models.LeaderboardID p) leaderboardEndTime w3 key' Hne)
    as Hc.
  rewrite (ensure_pair env (models.LeaderboardID p) leaderboardEndTime w3).
  destruct (runOf _ w3) as [[]|e]; [|done].
  destruct (execFails env); [done|].
  cbn [snd cache setCache record]. rewrite exec_one, apply_other; [done | done].
Qed.

Lemma JoinLeaderboard_table_other w k :
  k <> (models.LeaderboardID p, models.NamespacedUserID p) ->
  table (after (JoinLeaderboard env p leaderboardEndTime) w) !! k = table w !! k.
Proof.
  intros Hne. unfold after. rewrite JoinLeaderboard_unfold. cbv zeta.
  destruct (getItemFails env); [done|]. destruct (putItemFails env); [done|].
  set (w3 := setTable _ _).
  pose proof (ensure_table env (models.LeaderboardID p) leaderboardEndTime w3) as Ht.
  rewrite (ensure_pair env (models.LeaderboardID p) leaderboardEndTime w3).
  assert (Hw3 : table w3 !! k = table w !! k) by (by apply lookup_insert_ne).
  destruct (runOf _ w3) as [[]|e]; [|cbn [snd]; by rewrite Ht].
  destruct (execFails env); cbn [snd table setCache record]; by rewrite Ht.
Qed.

End JoinFrames.

(** X20.  No operation on one leaderboard touches another: the cache key and
    the table items of every other leaderboard are as they were, whichever
    calls fail. *)
Theorem leaderboards_are_isolated (env : Env) (leaderboardID other : string)
    (leaderboardEndTime : Time) (w : World) :
  leaderboardID <> other ->
  let untouched (w' : World) :=
    cache w' !! getRedisKey other = cache w !! getRedisKey other /\
    forall member, table w' !! (other, member) = table w !! (other, member) in
  (forall n, untouched (after (GetTopNParticipants env leaderboardID n leaderboardEndTime) w)) /\
  (forall m,
      untouched (after (GetParticipantScoreAndRank env leaderboardID m leaderboardEndTime) w)) /\
  (forall m delta,
      untouched (after (UpdateScore env leaderboardID m delta leaderboardEndTime) w)) /\
  (forall p, models.LeaderboardID p = leaderboardID ->
      untouched (after (JoinLeaderboard env p leaderboardEndTime) w)) /\
  (forall m, untouched (after (LeaveLeaderboard env leaderboardID m) w)).
Proof.
  intros Hne untouched.
  assert (Hkey : getRedisKey leaderboardID <> getRedisKey other).
  { intros H. by apply getRedisKey_inj in H. }
  pose proof (ensure_table env leaderboardID leaderboardEndTime w) as Het.
  pose proof (ensure_cache_other env leaderboardID leaderboardEndTime w _ Hkey) as Hec.
  split; [|split; [|split; [|split]]].
  - intros n. destruct (GetTopN_stores env leaderboardID leaderboardEndTime n w) as [Ht Hc].
    split; [by rewrite Hc | intros member; by rewrite Ht, Het].
  - intros m. destruct (GetPSR_stores env leaderboardID leaderboardEndTime m w) as [Ht Hc].
    split; [by rewrite Hc | intros member; by rewrite Ht, Het].
  - intros m delta. split; [by apply UpdateScore_cache_other|].
    intros member. rewrite UpdateScore_table. destruct (updateItemFails env); [done|].
    apply update_lookup_ne. congruence.
  - intros p Hp. split.
    + apply JoinLeaderboard_cache_other. by rewrite Hp.
    + intros member. apply JoinLeaderboard_table_other. rewrite Hp. congruence.
  - intros m. split; [by apply LeaveLeaderboard_cache_other|].
    intros member. rewrite LeaveLeaderboard_table.
    destruct (_ || _); [done|]. apply lookup_delete_ne. congruence.
Qed.

Section Identifiers.

Lemma Split_Create clientID userID :
  strings.Contains clientID "___" = false ->
  strings.Contains userID "___" = false ->
  strings.HasSuffix clientID "_" = false ->
  strings.Split (models.CreateNamespacedUserID clientID userID) "___" = [clientID; userID].
Proof.
  intros Hc Hu Hs. unfold models.CreateNamespacedUserID.
  rewrite (Split_sep _ _ (Index_create clientID userID Hc Hs)).
  rewrite str_take_app, str_drop_add, str_drop_app.
  change (strings.drop 3 ("___" +:+ userID)) with userID.
  apply Contains_false in Hu. by rewrite (Split_None _ _ Hu).
Qed.

(** X1.  The pair [SplitNamespacedUserID] returns is either the pair of empty
    strings or recomposes, with [CreateNamespacedUserID], to the string that
    was split; its two components then hold no separator. *)
Theorem split_recomposes namespacedUserID clientID userID :
  models.SplitNamespacedUserID namespacedUserID = (clientID, userID) ->
  (clientID = "" /\ userID = "") \/
  (models.CreateNamespacedUserID clientID userID = namespacedUserID /\
   strings.Contains clientID "___" = false /\
   strings.Contains userID "___" = false).
Proof.
  unfold models.SplitNamespacedUserID.
  destruct (strings.Split namespacedUserID "___") as [|p0 [|p1 [|p2 l]]] eqn:E;
    intros [= <- <-]; try by left.
  right. apply Split_two in E as (-> & _ & Hc & Hu). done.
Qed.

(** X2.  For components without a separator, the client one not ending in
    "_", a participant made from the composed ID is the participant made from
    the components. *)
Theorem constructors_agree now leaderboardID clientID userID score :
  strings.Contains clientID "___" = false ->
  strings.Contains userID "___" = false ->
  strings.HasSuffix clientID "_" = false ->
  models.NewParticipantFromNamespacedID now leaderboardID
    (models.CreateNamespacedUserID clientID userID) score
  = models.NewParticipantModel now leaderboardID clientID userID score.
Proof.
  intros Hc Hu Hs.
  unfold models.NewParticipantFromNamespacedID, models.NewParticipantModel,
    models.SplitNamespacedUserID.
  by rewrite (Split_Create _ _ Hc Hu Hs).
Qed.

(** X3.  [NewParticipantFromNamespacedID] never fails: from an ID that does
    not hold exactly one separator it makes a participant that keeps the ID
    and has an empty ClientID and an empty UserID. *)
Theorem participant_from_unsplit_id now leaderboardID namespacedUserID score :
  strings.Count namespacedUserID "___" <> 1 ->
  models.NewParticipantFromNamespacedID now leaderboardID namespacedUserID score
  = {| models.LeaderboardID := leaderboardID;
       models.NamespacedUserID := namespacedUserID;
       models.ClientID := "";
       models.UserID := "";
       models.Score := score;
       models.UpdatedAt := now |}.
Proof.
  intros Hcount.
  unfold models.NewParticipantFromNamespacedID, models.SplitNamespacedUserID.
  pose proof (Split_length namespacedUserID "___" sep_nonempty) as Hl.
  destruct (strings.Split namespacedUserID "___") as [|p0 [|p1 [|p2 l]]]; try done.
  simpl in Hl. lia.
Qed.

Lemma validate_Ok_wellFormed s c u :
  leaderboard.validateNamespacedUserID s = Ok (c, u) -> wellFormed s.
Proof.
  intros (Hsplit & Hc & Hu)%validate_Ok.
  apply Split_two in Hsplit as (Hs & Hcount & Hcc & Hcu).
  split; [done|]. by exists c, u.
Qed.

(** X4.  The helper's [UpdateScore] and [GetParticipantScoreAndRank] refuse a
    malformed ID with the invalid-format error and leave the world as it is:
    no call to either store is made. *)
Theorem helper_rejects_before_stores (l : leaderboard.IndividualLeaderboardHelper)
    (env : Env) namespacedUserID delta w :
  ~ wellFormed namespacedUserID ->
  leaderboard.UpdateScore l env namespacedUserID delta w
    = (Err (Errorf "invalid namespaced user ID format"), w) /\
  leaderboard.GetParticipantScoreAndRank l env namespacedUserID w
    = (Err (Errorf "invalid namespaced user ID format"), w).
Proof.
  intros Hnot.
  unfold leaderboard.UpdateScore, leaderboard.GetParticipantScoreAndRank,
    mbind, M_bind, bind, leaderboard.lift.
  destruct (leaderboard.validateNamespacedUserID namespacedUserID) as [[c u]|e] eqn:Hv.
  - destruct Hnot. by apply validate_Ok_wellFormed in Hv.
  - apply validate_Err in Hv as ->. done.
Qed.

End Identifiers.

Section ReadEdges.

Variable env : Env.
Variable leaderboardID : string.
Variable leaderboardEndTime : Time.
Let key := getRedisKey leaderboardID.
Let ensure := ensureLeaderboardExists env leaderboardID leaderboardEndTime.

(** X18.  When the warm-up fails, both reads stop there and return its
    error as it is, which is the wrapped error of the key check or of the
    submission of the batch, never that of the scan. *)
Theorem warmup_failure_propagates n member w e :
  runOf ensure w = Err e ->
  let top := GetTopNParticipants env leaderboardID n leaderboardEndTime in
  let one := GetParticipantScoreAndRank env leaderboardID member leaderboardEndTime in
  top w = (Err e, after ensure w) /\ one w = (Err e, after ensure w) /\
  (e = Wrapf "failed to check if Redis key exists" store_error \/
   e = Wrapf "failed to execute Redis pipeline" store_error).
Proof.
  intros He top one.
  assert (Hpair : ensure w = (Err e, after ensure w)).
  { unfold ensure in *. rewrite (ensure_pair env leaderboardID leaderboardEndTime w).
    by rewrite He. }
  split; [|split].
  - unfold top, GetTopNParticipants, mbind, M_bind, bind. fold ensure. by rewrite Hpair.
  - unfold one, GetParticipantScoreAndRank, mbind, M_bind, bind. fold ensure. by rewrite Hpair.
  - unfold runOf, ensure in He. rewrite ensure_unfold in He.
    destruct (existsFails env); [left; by injection He|].
    destruct (_ =? _)%Z; [|done].
    destruct (syncLeaderboard _ _ _ _) as [[pipe err] w1].
    destruct (warmExecFails env); [right; by injection He | done].
Qed.

(** X19.  For a leaderboard without items and a cold cache,
    [GetTopNParticipants] returns the empty list and
    [GetParticipantScoreAndRank] "participant not found in leaderboard"; the
    warm-up creates no cache key. *)
Theorem empty_leaderboard n member w :
  dynamodb.partition leaderboardID (table w) = [] ->
  EXISTS (clock env) (cache w) key = 0%Z ->
  cleanScan env -> existsFails env = false -> warmExecFails env = false ->
  zrevrangeFails env = false -> zscoreFails env = false ->
  runOf (GetTopNParticipants env leaderboardID n leaderboardEndTime) w = Ok [] /\
  runOf (GetParticipantScoreAndRank env leaderboardID member leaderboardEndTime) w
    = Err (Errorf "participant not found in leaderboard") /\
  EXISTS (clock env) (cache (after ensure w)) key = 0%Z.
Proof.
  intros Hempty Hcold Hclean Hex Hok Hrange Hscore.
  pose proof (warm_entry env leaderboardID leaderboardEndTime w Hcold Hex Hok) as Hentry.
  destruct (queued_clean env (pagesOf env leaderboardID w) 0 Hclean) as [Hq He].
  rewrite Hq, He, concat_pagesOf, Hempty in Hentry. simpl in Hentry.
  fold ensure key in Hentry.
  assert (Hlive : live (clock env) (cache (after ensure w)) key = None).
  { unfold live. by rewrite Hentry. }
  pose proof (ensure_ok env leaderboardID leaderboardEndTime w Hex Hok) as Hr.
  fold ensure in Hr.
  split; [|split].
  - rewrite GetTopN_run. fold ensure key. rewrite Hr, Hrange.
    unfold ZREVRANGE. rewrite Hlive. simpl. by rewrite revList_empty, rangeOf_nil.
  - rewrite GetPSR_run. fold ensure key. rewrite Hr, Hscore.
    unfold ZSCORE. rewrite Hlive. done.
  - unfold EXISTS. by rewrite Hlive.
Qed.

End ReadEdges.

Section WarmupContents.

Variable env : Env.
Variable leaderboardID : string.
Variable leaderboardEndTime : Time.
Let key := getRedisKey leaderboardID.
Let ensure := ensureLeaderboardExists env leaderboardID leaderboardEndTime.

(** X5.  Whatever page requests or pages fail, a warm-up that submits its
    batch puts no participant into the cache that the table does not hold:
    every member other than the placeholder "" is an item of the
    leaderboard, with the score of that item. *)
Theorem warmup_invents_nothing w member x :
  consistent (table w) ->
  EXISTS (clock env) (cache w) key = 0%Z ->
  existsFails env = false -> warmExecFails env = false ->
  member <> "" ->
  ZSCORE (clock env) (cache (after ensure w)) key member = Some x ->
  exists it, table w !! (leaderboardID, member) = Some it /\ dynamodb.score it = x.
Proof. apply warm_members_sound. Qed.

(** X6.  A warm-up from a cold cache whose scan goes through succeeds, leaves
    the table as it is, and makes the cache answer every member with the
    score the table holds for it, and with none for a member the table does
    not hold. *)
Theorem warmup_mirrors_table w :
  consistent (table w) ->
  EXISTS (clock env) (cache w) key = 0%Z ->
  existsFails env = false -> warmExecFails env = false ->
  cleanScan env ->
  runOf ensure w = Ok tt /\
  table (after ensure w) = table w /\
  forall member,
    ZSCORE (clock env) (cache (after ensure w)) key member
    = dynamodb.score <$> table w !! (leaderboardID, member).
Proof.
  intros Hcons Hcold Hex Hok Hclean.
  split; [by apply ensure_ok|]. split; [apply ensure_table|].
  intros member. by apply warm_members_exact.
Qed.

(** X16.  [GetTopNParticipants] does not refuse a negative n: it lists the
    cached set, best first, without its last -n entries (nothing when the set
    has no more than -n). *)
Theorem top_n_negative n w result :
  runOf (GetTopNParticipants env leaderboardID n leaderboardEndTime) w = Ok result ->
  (- 2 ^ 63 < n < 0)%Z ->
  let zs := members (live (clock env) (cache (after ensure w)) key) in
  result = withRanks 0 (take (Z.to_nat (Z.of_nat (size zs) + n)) (revList zs)).
Proof.
  rewrite GetTopN_run. fold ensure key.
  destruct (runOf ensure w) as [[]|e]; [|done].
  destruct (zrevrangeFails env); [done|]. intros [= <-] Hn zs. subst zs.
  f_equal. unfold ZREVRANGE. rewrite <- revList_length.
  set (l := revList _). unfold rangeOf, int64. cbn zeta.
  change (0 <? 0)%Z with false. cbv iota.
  replace ((n - 1 + 2 ^ 63) mod 2 ^ 64 - 2 ^ 63)%Z with (n - 1)%Z
    by (rewrite Z.mod_small; lia).
  destruct (Z.ltb_spec (n - 1) 0); [|lia].
  destruct (Z.ltb_spec (Z.of_nat (length l) + (n - 1)) 0).
  { cbn [orb]. by replace (Z.to_nat (Z.of_nat (length l) + n)) with 0 by lia. }
  destruct (Z.leb_spec (Z.of_nat (length l)) 0); [lia|].
  cbn [orb]. rewrite drop_0. f_equal. lia.
Qed.

End WarmupContents.

Lemma seeded_consistent : consistent (table seeded).
Proof.
  intros k it H. unfold seeded in H. cbn [table] in H.
  apply lookup_singleton_Some in H as [<- <-]. reflexivity.
Qed.

Lemma calm_cleanScan now : cleanScan (calm now).
Proof. intros k. split; reflexivity. Qed.

Lemma split_recomposes_witness :
  models.SplitNamespacedUserID "kgen___alice" = ("kgen", "alice") /\
  models.CreateNamespacedUserID "kgen" "alice" = "kgen___alice".
Proof.
  split; [reflexivity|].
  destruct (split_recomposes "kgen___alice" "kgen" "alice" eq_refl) as [[H _] | [H _]];
    [discriminate H | exact H].
Defined.

Lemma constructors_agree_witness :
  strings.Contains "kgen" "___" = false /\
  strings.Contains "alice" "___" = false /\
  strings.HasSuffix "kgen" "_" = false /\
  models.NewParticipantFromNamespacedID 7%Z "lb" (models.CreateNamespacedUserID "kgen" "alice") 50
  = models.NewParticipantModel 7%Z "lb" "kgen" "alice" 50.
Proof.
  split; [reflexivity|]. split; [reflexivity|]. split; [reflexivity|].
  exact (constructors_agree 7%Z "lb" "kgen" "alice" 50%float eq_refl eq_refl eq_refl).
Defined.

Lemma participant_from_unsplit_id_witness :
  strings.Count "alice" "___" <> 1 /\
  models.ClientID (models.NewParticipantFromNamespacedID 7%Z "lb" "alice" 50) = "".
Proof.
  assert (H : strings.Count "alice" "___" <> 1) by (vm_compute; discriminate).
  split; [exact H|].
  exact (f_equal models.ClientID (participant_from_unsplit_id 7%Z "lb" "alice" 50%float H)).
Defined.

Lemma helper_rejects_witness :
  ~ wellFormed "alice" /\
  leaderboard.UpdateScore helperKgen (calm 1000%Z) "alice" 5%float seeded
  = (Err (Errorf "invalid namespaced user ID format"), seeded).
Proof.
  assert (H : ~ wellFormed "alice").
  { intros [H _]. vm_compute in H. discriminate H. }
  split; [exact H|].
  exact (proj1 (helper_rejects_before_stores helperKgen (calm 1000%Z) "alice" 5%float seeded H)).
Defined.

Lemma warmup_invents_nothing_witness :
  consistent (table seededCold) /\
  EXISTS 1000%Z (cache seededCold) (getRedisKey "lb") = 0%Z /\
  ZSCORE 1000%Z (cache (after (ensureLeaderboardExists (calm 1000%Z) "lb" 5000%Z) seededCold))
    (getRedisKey "lb") "kgen___alice" = Some 50%float /\
  exists it, table seededCold !! ("lb", "kgen___alice") = Some it /\
             dynamodb.score it = 50%float.
Proof.
  assert (Hne : "kgen___alice" <> "") by discriminate.
  split; [exact seeded_consistent|]. split; [reflexivity|]. split; [reflexivity|].
  exact (warmup_invents_nothing (calm 1000%Z) "lb" 5000%Z seededCold "kgen___alice" 50%float
           seeded_consistent eq_refl eq_refl eq_refl Hne eq_refl).
Defined.

Lemma warmup_mirrors_table_witness :
  consistent (table seededCold) /\
  EXISTS 1000%Z (cache seededCold) (getRedisKey "lb") = 0%Z /\
  cleanScan (calm 1000%Z) /\
  ZSCORE 1000%Z (cache (after (ensureLeaderboardExists (calm 1000%Z) "lb" 5000%Z) seededCold))
    (getRedisKey "lb") "kgen___bob"
  = dynamodb.score <$> table seededCold !! ("lb", "kgen___bob").
Proof.
  split; [exact seeded_consistent|]. split; [reflexivity|].
  split; [exact (calm_cleanScan 1000%Z)|].
  exact (proj2 (proj2 (warmup_mirrors_table (calm 1000%Z) "lb" 5000%Z seededCold
                         seeded_consistent eq_refl eq_refl eq_refl (calm_cleanScan 1000%Z)))
           "kgen___bob").
Defined.

Lemma update_score_warm_witness :
  EXISTS 1000%Z (cache seeded) (getRedisKey "lb") = 1%Z /\
  runOf (UpdateScore (calm 1000%Z) "lb" "kgen___alice" 5%float 5000%Z) seeded = Ok tt.
Proof.
  split; [reflexivity|].
  exact (proj1 (update_score_warm (calm 1000%Z) "lb" 5000%Z "kgen___alice" 5%float seeded
                  eq_refl eq_refl eq_refl eq_refl)).
Defined.

Lemma update_score_cold_witness :
  consistent (table seededCold) /\
  EXISTS 1000%Z (cache seededCold) (getRedisKey "lb") = 0%Z /\
  ZSCORE 1000%Z
    (cache (after (UpdateScore (calm 1000%Z) "lb" "kgen___alice" 5%float 5000%Z) seededCold))
    (getRedisKey "lb") "kgen___alice"
  = Some 60%float.
Proof.
  split; [exact seeded_consistent|]. split; [reflexivity|].
  exact (proj2 (proj2 (update_score_cold (calm 1000%Z) "lb" 5000%Z "kgen___alice" 5%float
                         seededCold seeded_consistent eq_refl (calm_cleanScan 1000%Z)
                         eq_refl eq_refl eq_refl eq_refl))).
Defined.

Lemma update_score_partial_witness :
  EXISTS 1000%Z (cache seeded) (getRedisKey "lb") = 1%Z /\
  execFails (execDown 1000%Z) = true /\
  runOf (UpdateScore (execDown 1000%Z) "lb" "kgen___alice" 5%float 5000%Z) seeded
  = Err (Wrapf "failed to update Redis sorted set" store_error).
Proof.
  split; [reflexivity|]. split; [reflexivity|].
  exact (proj1 (update_score_partial (execDown 1000%Z) "lb" 5000%Z "kgen___alice" 5%float
                  seeded eq_refl eq_refl eq_refl eq_refl)).
Defined.

Lemma leave_removes_witness :
  execFails (calm 1000%Z) = false /\ deleteItemFails (calm 1000%Z) = false /\
  runOf (LeaveLeaderboard (calm 1000%Z) "lb" "kgen___alice") seeded = Ok tt.
Proof.
  split; [reflexivity|]. split; [reflexivity|].
  exact (proj1 (leave_removes (calm 1000%Z) "lb" "kgen___alice" seeded eq_refl eq_refl)).
Defined.

Lemma join_sets_score_witness :
  getItemFails (calm 1000%Z) = false /\
  ZSCORE 1000%Z
    (cache (after (JoinLeaderboard (calm 1000%Z)
                     (models.NewParticipantModel 0%Z "lb" "kgen" "bob" 7%float) 5000%Z)
              seededCold))
    (getRedisKey "lb") "kgen___bob"
  = Some 7%float.
Proof.
  split; [reflexivity|].
  exact (proj1 (proj2 (proj2 (join_sets_score (calm 1000%Z)
                                (models.NewParticipantModel 0%Z "lb" "kgen" "bob" 7%float)
                                5000%Z seededCold eq_refl eq_refl eq_refl eq_refl eq_refl)))).
Defined.

Lemma leave_then_read_witness :
  consistent (table seeded) /\ "kgen___alice" <> "" /\
  runOf (GetParticipantScoreAndRank (calm 2000%Z) "lb" "kgen___alice" 5000%Z)
    (after (LeaveLeaderboard (calm 1000%Z) "lb" "kgen___alice") seeded)
  = Err (Errorf "participant not found in leaderboard").
Proof.
  assert (Hne : "kgen___alice" <> "") by discriminate.
  split; [exact seeded_consistent|]. split; [exact Hne|].
  exact (leave_then_read (calm 1000%Z) (calm 2000%Z) "lb" 5000%Z "kgen___alice" seeded
           seeded_consistent Hne eq_refl eq_refl eq_refl eq_refl eq_refl).
Defined.

Lemma top_n_shape_witness :
  runOf (GetTopNParticipants (calm 1000%Z) "lb" 3 5000%Z) seeded
  = Ok [{| customTypes.Member := "kgen___alice"; customTypes.Score := 50;
           customTypes.Rank := 1 |}] /\
  NoDup (customTypes.Member
           <$> [{| customTypes.Member := "kgen___alice"; customTypes.Score := 50;
                   customTypes.Rank := 1 |}]).
Proof.
  split; [reflexivity|].
  exact (proj1 (proj2 (top_n_shape (calm 1000%Z) "lb" 5000%Z 3 seeded _ eq_refl))).
Defined.

Lemma reads_agree_witness :
  runOf (GetTopNParticipants (calm 1000%Z) "lb" 3 5000%Z) seeded
  = Ok [{| customTypes.Member := "kgen___alice"; customTypes.Score := 50;
           customTypes.Rank := 1 |}] /\
  runOf (GetParticipantScoreAndRank (calm 1000%Z) "lb" "kgen___alice" 5000%Z) seeded
  = Ok {| customTypes.Member := "kgen___alice"; customTypes.Score := 50;
          customTypes.Rank := 1 |}.
Proof.
  split; [reflexivity|].
  exact (reads_agree (calm 1000%Z) "lb" 5000%Z 3 seeded _ 0 _ eq_refl eq_refl eq_refl eq_refl).
Defined.

Lemma leaderboards_are_isolated_witness :
  "lb" <> "other" /\
  forall member delta,
    cache (after (UpdateScore (calm 1000%Z) "lb" member delta 5000%Z) seeded)
      !! getRedisKey "other"
    = cache seeded !! getRedisKey "other".
Proof.
  assert (Hne : "lb" <> "other") by discriminate.
  split; [exact Hne|]. intros member delta.
  exact (proj1 (proj1 (proj2 (proj2 (leaderboards_are_isolated (calm 1000%Z) "lb" "other"
                                       5000%Z seeded Hne))) member delta)).
Defined.

Lemma warmup_failure_witness :
  runOf (ensureLeaderboardExists (cacheDown 1000%Z) "lb" 5000%Z) seeded
  = Err (Wrapf "failed to check if Redis key exists" store_error) /\
  runOf (GetTopNParticipants (cacheDown 1000%Z) "lb" 3 5000%Z) seeded
  = Err (Wrapf "failed to check if Redis key exists" store_error).
Proof.
  split; [reflexivity|].
  exact (f_equal fst (proj1 (warmup_failure_propagates (cacheDown 1000%Z) "lb" 5000%Z 3 ""
                               seeded _ eq_refl))).
Defined.

Lemma empty_leaderboard_witness :
  dynamodb.partition "lb" (table emptyWorld) = [] /\
  EXISTS 1000%Z (cache emptyWorld) (getRedisKey "lb") = 0%Z /\
  runOf (GetTopNParticipants (calm 1000%Z) "lb" 3 5000%Z) emptyWorld = Ok [].
Proof.
  split; [reflexivity|]. split; [reflexivity|].
  exact (proj1 (empty_leaderboard (calm 1000%Z) "lb" 5000%Z 3 "" emptyWorld
                  eq_refl eq_refl (calm_cleanScan 1000%Z) eq_refl eq_refl eq_refl eq_refl)).
Defined.

Lemma top_n_negative_witness :
  runOf (GetTopNParticipants (calm 1000%Z) "lb" (-1) 5000%Z) seeded = Ok [] /\
  (- 2 ^ 63 < -1 < 0)%Z /\
  [] = withRanks 0
         (take (Z.to_nat (Z.of_nat (size (members (live 1000%Z
                  (cache (after (ensureLeaderboardExists (calm 1000%Z) "lb" 5000%Z) seeded))
                  (getRedisKey "lb")))) + -1))
            (revList (members (live 1000%Z
               (cache (after (ensureLeaderboardExists (calm 1000%Z) "lb" 5000%Z) seeded))
               (getRedisKey "lb"))))).
Proof.
  assert (Hn : (- 2 ^ 63 < -1 < 0)%Z) by lia.
  split; [reflexivity|]. split; [exact Hn|].
  exact (top_n_negative (calm 1000%Z) "lb" 5000%Z (-1) seeded [] eq_refl Hn).
Defined.
